(** * ICD MCP server: the WHO ICD-API client and the action dispatcher

    A shallow embedding of [client.ts] (class [WHOICDClient]) and
    [handlers.ts] (function [handleAction] and its helpers), with the
    properties the specification states about them.

    Modelling conventions.
    - JavaScript strings are [string]s (byte strings).
    - JavaScript numbers that reach the code (HTTP status codes, clock
      readings in milliseconds, token lifetimes, [max_results], numbers in
      JSON bodies) are integral and modelled in [Z].
    - A parsed JSON body is a [json]; [undefined] is the [None] of
      [value := option json].  The list of a [JObj] is the object's own
      properties in enumeration order, and a property is looked up by its
      first binding.
    - The network and the clock are oracles of the history of the run
      ([env]); the client's mutable fields and the history are threaded
      through a state-and-exception monad [M].
    - [apiRequest] calls itself without a bound, so it takes fuel; running
      out of fuel is the outcome [Diverge]. *)

From Stdlib Require Import List String Ascii ZArith Bool Lia Arith.
From Stdlib Require Import DecimalString.
Import ListNotations.
Local Open Scope string_scope.
Local Open Scope Z_scope.

Set Implicit Arguments.

(** ** Strings *)

Module Str.

(** The double quote character, and the same as a one-character string. *)
Definition dquote_char : ascii := "034"%char.
Definition dq : string := String dquote_char EmptyString.
Definition nl : string := String "010"%char EmptyString.

(** [quoted s] is [s] with every [^] turned into a double quote; the
    message texts of the handlers are written with it. *)
Fixpoint quoted (s : string) : string :=
  match s with
  | EmptyString => EmptyString
  | String c r =>
      String (if Ascii.eqb c "^"%char then dquote_char else c) (quoted r)
  end.

(** Decimal rendering of an integer, as [String(n)] gives it. *)
Definition of_Z (z : Z) : string := NilZero.string_of_int (Z.to_int z).

Definition of_nat (n : nat) : string := of_Z (Z.of_nat n).

(** [Array.prototype.join]. *)
Fixpoint join (sep : string) (l : list string) : string :=
  match l with
  | [] => ""
  | [x] => x
  | x :: r => x ++ sep ++ join sep r
  end.

(** [s.startsWith(p)]. *)
Definition startsWith (s p : string) : bool := String.prefix p s.

(** [s.replace(pat, rep)] for a string pattern: the first occurrence only. *)
Fixpoint replace (fuel : nat) (pat rep s : string) : string :=
  if String.prefix pat s
  then rep ++ String.substring (String.length pat)
                (String.length s - String.length pat) s
  else match s with
       | EmptyString => EmptyString
       | String c r =>
           match fuel with
           | O => s
           | S f => String c (replace f pat rep r)
           end
       end.

Definition replace_first (pat rep s : string) : string :=
  replace (String.length s) pat rep s.

End Str.

(** ** JSON values and the JavaScript operations the code applies to them *)

#[local] Set Warnings "-register-all".

Inductive json : Type :=
| JNull
| JBool (b : bool)
| JNum (n : Z)
| JStr (s : string)
| JArr (items : list json)
| JObj (props : list (string * json)).

(** A JavaScript value as the code sees it: [None] is [undefined]. *)
Definition value : Type := option json.

Definition undefined : value := None.

Module Js.

(** Truthiness, as [if (x)], [!x] and [x || y] use it. *)
Definition truthy (v : value) : bool :=
  match v with
  | None => false
  | Some JNull => false
  | Some (JBool b) => b
  | Some (JNum n) => negb (n =? 0)
  | Some (JStr s) => negb (String.eqb s "")
  | Some (JArr _) => true
  | Some (JObj _) => true
  end.

(** [a || b]. *)
Definition or (a b : value) : value := if truthy a then a else b.

(** [typeof x === "object" && x !== null]. *)
Definition is_object (v : value) : bool :=
  match v with
  | Some (JArr _) | Some (JObj _) => true
  | _ => false
  end.

(** [typeof x === "string"]. *)
Definition is_string (v : value) : bool :=
  match v with
  | Some (JStr _) => true
  | _ => false
  end.

Fixpoint lookup (k : string) (l : list (string * json)) : value :=
  match l with
  | [] => None
  | (k', v) :: r => if String.eqb k k' then Some v else lookup k r
  end.

(** [x.k] or [x["k"]] for [x] that is neither [null] nor [undefined]
    and a key that no prototype defines (all keys the code reads). *)
Definition get (j : json) (k : string) : value :=
  match j with
  | JObj l => lookup k l
  | _ => None
  end.

(** [String(x)] for a JSON value; also what a template literal inserts. *)
Fixpoint string_of_json (j : json) : string :=
  match j with
  | JNull => "null"
  | JBool true => "true"
  | JBool false => "false"
  | JNum n => Str.of_Z n
  | JStr s => s
  | JArr l =>
      Str.join ","
        (map (fun e => match e with
                       | JNull => ""
                       | _ => string_of_json e
                       end) l)
  | JObj _ => "[object Object]"
  end.

Definition String_ (v : value) : string :=
  match v with
  | None => "undefined"
  | Some j => string_of_json j
  end.

(** [arr.slice(0, n)]: a negative [n] counts from the end. *)
Definition slice0 {A} (n : Z) (l : list A) : list A :=
  if 0 <=? n then firstn (Z.to_nat n) l
  else firstn (Z.to_nat (Z.of_nat (List.length l) + n)) l.

(** *** [JSON.stringify] *)

Definition hex_digit (n : nat) : ascii :=
  match n with
  | 0 => "0" | 1 => "1" | 2 => "2" | 3 => "3" | 4 => "4" | 5 => "5"
  | 6 => "6" | 7 => "7" | 8 => "8" | 9 => "9" | 10 => "a" | 11 => "b"
  | 12 => "c" | 13 => "d" | 14 => "e" | _ => "f"
  end%char%nat.

Definition escape_char (c : ascii) : string :=
  let n := nat_of_ascii c in
  if Nat.eqb n 34 then "\" ++ Str.dq
  else if Nat.eqb n 92 then "\\"
  else if Nat.eqb n 8 then "\b"
  else if Nat.eqb n 12 then "\f"
  else if Nat.eqb n 10 then "\n"
  else if Nat.eqb n 13 then "\r"
  else if Nat.eqb n 9 then "\t"
  else if Nat.ltb n 32
       then "\u00" ++ String (hex_digit (Nat.div n 16))
                        (String (hex_digit (Nat.modulo n 16)) "")
  else String c "".

Fixpoint escape (s : string) : string :=
  match s with
  | EmptyString => ""
  | String c r => escape_char c ++ escape r
  end.

(** [QuoteJSONString]. *)
Definition quote (s : string) : string := Str.dq ++ escape s ++ Str.dq.

(** The brackets around the serialised members, with the line breaks
    that a non-empty [gap] asks for. *)
Definition enclose (opening closing gap stepback indent : string)
           (members : list string) : string :=
  match members with
  | [] => opening ++ closing
  | _ =>
      if String.eqb gap ""
      then opening ++ Str.join "," members ++ closing
      else opening ++ Str.nl ++ indent
             ++ Str.join ("," ++ Str.nl ++ indent) members
             ++ Str.nl ++ stepback ++ closing
  end.

(** [JSON.stringify(j, null, gap)] at the current indentation. *)
Fixpoint serialize (gap indent : string) (j : json) : string :=
  match j with
  | JNull => "null"
  | JBool true => "true"
  | JBool false => "false"
  | JNum n => Str.of_Z n
  | JStr s => quote s
  | JArr l =>
      enclose "[" "]" gap indent (indent ++ gap)
        (map (serialize gap (indent ++ gap)) l)
  | JObj l =>
      enclose "{" "}" gap indent (indent ++ gap)
        (map (fun kv =>
                let '(k, v) := kv in
                quote k ++ ":" ++ (if String.eqb gap "" then "" else " ")
                  ++ serialize gap (indent ++ gap) v) l)
  end.

(** [JSON.stringify(j)]. *)
Definition stringify (j : json) : string := serialize "" "" j.

(** [JSON.stringify(j, null, 2)]. *)
Definition stringify2 (j : json) : string := serialize "  " "" j.

End Js.

(** ** The outside world: HTTP exchanges, the clock, the console *)

(** A thrown JavaScript error: its class and its [message]. *)
Record error : Type := mkError { err_class : string; message : string }.

Definition Error (msg : string) : error := mkError "Error" msg.
Definition TypeError (msg : string) : error := mkError "TypeError" msg.
Definition SyntaxError (msg : string) : error := mkError "SyntaxError" msg.

(** The body [authenticate] posts to the token endpoint. *)
Record token_request : Type := mkTokenRequest {
  tq_url : string;
  grant_type : string;
  client_id : string;
  client_secret : string;
  scope : string
}.

(** What [response.json()] of the token endpoint is read as: the code
    casts the parsed body to this type without checking it, and the model
    takes token answers of this type only. *)
Record token_data : Type := mkTokenData {
  access_token : string;
  expires_in : Z
}.

Record token_response : Type := mkTokenResponse {
  t_status : Z;
  t_text : string;
  t_json : option token_data      (* [None]: the body is not JSON *)
}.

(** The GET request [apiRequest] issues.  [url] is the base URL followed
    by the endpoint; [search] holds the parameters that the code appends
    form-encoded after a question mark. *)
Record request : Type := mkRequest {
  url : string;
  search : option (list (string * string));
  authorization : string;
  accept : string;
  accept_language : string;
  api_version : string
}.

Record response : Type := mkResponse {
  status : Z;
  text : string;
  body : option json              (* [None]: the body is not JSON *)
}.

(** [response.ok]. *)
Definition ok (st : Z) : bool := (200 <=? st) && (st <=? 299).

(** [fetch] either rejects or resolves with a response. *)
Inductive fetched (R : Type) : Type :=
| Rejected (e : error)
| Responded (r : R).
Arguments Rejected {R} e.
Arguments Responded {R} r.

Inductive event : Type :=
| EvNow (t : Z)                                           (* [Date.now()] *)
| EvAuth (q : token_request) (r : fetched token_response) (* POST for a token *)
| EvGet (q : request) (r : fetched response)              (* GET on the API *)
| EvWarn (msg : string) (e : error).                      (* [console.warn] *)

(** The history of a run, the most recent event first. *)
Definition history : Type := list event.

(** The environment answers from the history so far. *)
Record env : Type := mkEnv {
  clock : history -> Z;
  token_endpoint : history -> token_request -> fetched token_response;
  api : history -> request -> fetched response
}.

Definition is_auth (e : event) : bool :=
  match e with EvAuth _ _ => true | _ => false end.
Definition is_get (e : event) : bool :=
  match e with EvGet _ _ => true | _ => false end.

(** Number of authentication calls, of GET requests, in a history. *)
Definition auth_calls (h : history) : nat := List.length (filter is_auth h).
Definition get_calls (h : history) : nat := List.length (filter is_get h).

(** ** The client's state and the monad of the asynchronous code *)

(** The mutable fields of [WHOICDClient], and the history of the run. *)
Record world : Type := mkWorld {
  accessToken : option string;      (* [None] is [null] *)
  tokenExpiry : Z;
  trace : history
}.

(** A fresh client: [accessToken = null], [tokenExpiry = 0]. *)
Definition initial_world : world := mkWorld None 0 [].

Inductive outcome (A : Type) : Type :=
| Ret (a : A) (w : world)       (* the promise resolves *)
| Throw (e : error) (w : world) (* the promise rejects *)
| Diverge.                      (* the recursion does not end *)
Arguments Ret {A} a w.
Arguments Throw {A} e w.
Arguments Diverge {A}.

Definition M (A : Type) : Type := world -> outcome A.

Definition ret {A} (a : A) : M A := fun w => Ret a w.
Definition throw {A} (e : error) : M A := fun w => Throw e w.
Definition diverge {A} : M A := fun _ => Diverge.

Definition bind {A B} (m : M A) (k : A -> M B) : M B :=
  fun w =>
    match m w with
    | Ret a w' => k a w'
    | Throw e w' => Throw e w'
    | Diverge => Diverge
    end.

(** [try { m } catch (error) { handler }]. *)
Definition try_catch {A} (m : M A) (handler : error -> M A) : M A :=
  fun w =>
    match m w with
    | Ret a w' => Ret a w'
    | Throw e w' => handler e w'
    | Diverge => Diverge
    end.

Declare Scope js_scope.
Delimit Scope js_scope with js.
Notation "x <- m ;; k" := (bind m (fun x => k))
  (at level 61, m at next level, right associativity) : js_scope.
Notation "m ;; k" := (bind m (fun _ => k))
  (at level 61, right associativity) : js_scope.
Local Open Scope js_scope.

Definition get_accessToken : M (option string) := fun w => Ret (accessToken w) w.
Definition set_accessToken (t : option string) : M unit :=
  fun w => Ret tt (mkWorld t (tokenExpiry w) (trace w)).
Definition get_tokenExpiry : M Z := fun w => Ret (tokenExpiry w) w.
Definition set_tokenExpiry (t : Z) : M unit :=
  fun w => Ret tt (mkWorld (accessToken w) t (trace w)).
Definition record (e : event) (w : world) : world :=
  mkWorld (accessToken w) (tokenExpiry w) (e :: trace w).

(** [console.warn(msg, error)]. *)
Definition console_warn (msg : string) (e : error) : M unit :=
  fun w => Ret tt (record (EvWarn msg e) w).

(** [!s] for a [string | null]. *)
Definition falsy (s : option string) : bool :=
  match s with
  | None => true
  | Some s => String.eqb s ""
  end.

(** ** [types.ts] *)

Record WHOClientConfig : Type := mkConfig {
  cfg_clientId : string;
  cfg_clientSecret : string;
  cfg_icd10Release : option string;
  cfg_icd11Release : option string;
  cfg_language : option string
}.

Record ICDEntity : Type := mkEntity {
  code : json;
  title : string;
  definition : option string;
  longDefinition : option string;
  inclusions : option (list json);
  exclusions : option (list json);
  codingNote : option string;
  parent : value;
  children : option (list json);
  uri : value;
  classKind : value;
  browserUrl : value
}.

Record ICDSearchResult : Type := mkSearchResult {
  sr_code : json;
  sr_title : json;
  sr_score : value;
  sr_uri : json;
  sr_chapter : value
}.

Record ICDChapter : Type := mkChapter {
  ch_code : json;
  ch_title : string;
  ch_uri : json
}.

Record content_item : Type := mkText { item_text : string }.

Record ToolResult : Type := mkToolResult {
  content : list content_item;
  isError : option bool
}.

(** The arguments of the tool, after the schema [ICDParams] parsed them. *)
Record ICDParamsType : Type := mkParams {
  p_action : string;
  p_code : option string;
  p_query : option string;
  p_version : option string;
  p_chapter : option string;
  p_max_results : option Z;
  p_path : option string
}.

(** ** [client.ts]: class [WHOICDClient] *)

Definition TOKEN_ENDPOINT : string := "https://icdaccessmanagement.who.int/connect/token".
Definition API_BASE_URL : string := "https://id.who.int".

(** The fields the constructor sets once. *)
Record WHOICDClient : Type := mkClient {
  clientId : string;
  clientSecret : string;
  icd10Release : string;
  icd11Release : string;
  language : string
}.

(** [x || d] for an optional string. *)
Definition or_default (x : option string) (d : string) : string :=
  match x with
  | Some s => if String.eqb s "" then d else s
  | None => d
  end.

Definition new_WHOICDClient (config : WHOClientConfig) : WHOICDClient :=
  mkClient (cfg_clientId config) (cfg_clientSecret config)
           (or_default (cfg_icd10Release config) "2019")
           (or_default (cfg_icd11Release config) "2024-01")
           (or_default (cfg_language config) "en").

Section Client.

Variable E : env.
Variable this : WHOICDClient.

(** [Date.now()]. *)
Definition Date_now : M Z :=
  fun w => let t := clock E (trace w) in Ret t (record (EvNow t) w).

(** [fetch(TOKEN_ENDPOINT, {method: "POST", ...})]. *)
Definition fetch_token (q : token_request) : M token_response :=
  fun w =>
    let r := token_endpoint E (trace w) q in
    let w' := record (EvAuth q r) w in
    match r with
    | Rejected e => Throw e w'
    | Responded resp => Ret resp w'
    end.

(** [fetch(url, {headers})]. *)
Definition fetch_api (q : request) : M response :=
  fun w =>
    let r := api E (trace w) q in
    let w' := record (EvGet q r) w in
    match r with
    | Rejected e => Throw e w'
    | Responded resp => Ret resp w'
    end.

(** [response.json()]. *)
Definition json_of {A} (b : option A) : M A :=
  match b with
  | Some j => ret j
  | None => throw (SyntaxError "Unexpected token in JSON")
  end.

(** The form [authenticate] posts. *)
Definition credentials : token_request :=
  mkTokenRequest TOKEN_ENDPOINT "client_credentials"
                 (clientId this) (clientSecret this) "icdapi_access".

Definition authenticate : M unit :=
  response <- fetch_token credentials ;;
  if negb (ok (t_status response))
  then throw (Error ("Authentication failed: " ++ Str.of_Z (t_status response)
                       ++ " - " ++ t_text response))
  else
    data <- json_of (t_json response) ;;
    set_accessToken (Some (access_token data)) ;;
    now <- Date_now ;;
    set_tokenExpiry (now + (expires_in data - 300) * 1000).

Definition ensureToken : M (option string) :=
  tok <- get_accessToken ;;
  stale <- (if falsy tok then ret true
            else now <- Date_now ;;
                 expiry <- get_tokenExpiry ;;
                 ret (now >=? expiry)) ;;
  (if stale : bool then authenticate else ret tt) ;;
  get_accessToken.

(** What [`Bearer ${token}`] inserts for a [string | null]. *)
Definition bearer (token : option string) : string :=
  "Bearer " ++ match token with Some t => t | None => "null" end.

(** The URL and the headers of the GET of [apiRequest]. *)
Definition get_request (endpoint : string)
           (params : option (list (string * string)))
           (token : option string) : request :=
  mkRequest (API_BASE_URL ++ endpoint) params (bearer token)
            "application/json" (language this) "v2".

Fixpoint apiRequest (fuel : nat) (endpoint : string)
         (params : option (list (string * string))) : M json :=
  match fuel with
  | O => diverge
  | S fuel' =>
      token <- ensureToken ;;
      response <- fetch_api (get_request endpoint params token) ;;
      if status response =? 401 then
        set_accessToken None ;;
        apiRequest fuel' endpoint params
      else if status response =? 429 then
        throw (Error "Rate limit exceeded. Please try again later.")
      else if negb (ok (status response)) then
        throw (Error ("API request failed: " ++ Str.of_Z (status response)
                        ++ " - " ++ text response))
      else json_of (body response)
  end.

(** [x.k] where [x] may be [null]. *)
Definition prop (x : json) (k : string) : M value :=
  match x with
  | JNull => throw (TypeError ("Cannot read properties of null (reading '"
                                 ++ k ++ "')"))
  | _ => ret (Js.get x k)
  end.

(** [v || d] where [d] is a string literal: never [undefined]. *)
Definition or_str (v : value) (d : string) : json :=
  match Js.or v (Some (JStr d)) with
  | Some j => j
  | None => JStr d
  end.

(** The unwrapping of a localized field that [parseEntity] applies to
    [definition], [longDefinition] and [codingNote]. *)
Definition unwrap_value (v : value) : value :=
  match v with
  | Some j => if Js.is_object v then Js.get j "@value" else v
  | None => v
  end.

(** [x ? String(x) : undefined]. *)
Definition string_if_truthy (v : value) : option string :=
  if Js.truthy v then Some (Js.String_ v) else None.

(** The callback of [inclusionData.map] and of [data.exclusion.map]. *)
Definition label_of (i : json) : json :=
  if Js.is_object (Some i) then
    let label := Js.get i "label" in
    match label with
    | Some l =>
        if Js.is_object label
        then or_str (Js.get l "@value") (Js.stringify i)
        else or_str label (Js.stringify i)
    | None => or_str label (Js.stringify i)
    end
  else JStr (Js.string_of_json i).

Definition parseEntity (data : json) : M ICDEntity :=
  code0 <- prop data "code" ;;
  let code :=
    or_str (Js.or (Js.or code0 (Js.get data "theCode")) (Js.get data "codeRange")) "" in
  let title0 := Js.get data "title" in
  let title :=
    match title0 with
    | Some t =>
        if Js.is_object title0
        then Js.or (Js.get t "@value") (Some (JStr (Js.stringify t)))
        else title0
    | None => title0
    end in
  let definition := unwrap_value (Js.get data "definition") in
  let longDefinition := unwrap_value (Js.get data "longDefinition") in
  let inclusions :=
    match Js.or (Js.get data "inclusion") (Js.get data "indexTerm") with
    | Some (JArr l) => Some (map label_of l)
    | _ => None
    end in
  let exclusions :=
    match Js.get data "exclusion" with
    | Some (JArr l) => Some (map label_of l)
    | _ => None
    end in
  let codingNote := unwrap_value (Js.get data "codingNote") in
  let parent :=
    match Js.get data "parent" with
    | Some (JArr (p :: _)) => Some p
    | Some (JStr s) => Some (JStr s)
    | _ => undefined
    end in
  let children :=
    match Js.get data "child" with
    | Some (JArr l) => Some l
    | Some (JStr s) => Some [JStr s]
    | _ => None
    end in
  let browserUrl := Js.get data "browserUrl" in
  ret {| code := code;
         title := Js.String_ (Js.or title (Some (JStr "")));
         definition := string_if_truthy definition;
         longDefinition := string_if_truthy longDefinition;
         inclusions := inclusions;
         exclusions := exclusions;
         codingNote := string_if_truthy codingNote;
         parent := parent;
         children := children;
         uri := Js.or (Js.or (Js.get data "@id") (Js.get data "id")) undefined;
         classKind := Js.get data "classKind";
         browserUrl := browserUrl |}.

Definition getEntityByUri (fuel : nat) (uri : value) : M (option ICDEntity) :=
  match uri with
  | Some (JStr u) =>
      let cleanUri :=
        if Str.startsWith u "http://"
        then Str.replace_first "http://" "https://" u
        else u in
      let endpoint := Str.replace_first API_BASE_URL "" cleanUri in
      try_catch
        (data <- apiRequest fuel endpoint None ;;
         entity <- parseEntity data ;;
         ret (Some entity))
        (fun error =>
           console_warn ("Failed to get entity by URI " ++ u ++ ":") error ;;
           ret None)
  | Some JNull =>
      throw (TypeError "Cannot read properties of null (reading 'startsWith')")
  | None =>
      throw (TypeError "Cannot read properties of undefined (reading 'startsWith')")
  | Some _ => throw (TypeError "cleanUri.startsWith is not a function")
  end.

(** *** ICD-10 methods *)

Definition icd10_endpoint (code : string) : string :=
  "/icd/release/10/" ++ icd10Release this ++ "/" ++ code.

Definition getICD10Code (fuel : nat) (code : string) : M (option ICDEntity) :=
  try_catch
    (data <- apiRequest fuel (icd10_endpoint code) None ;;
     entity <- parseEntity data ;;
     ret (Some entity))
    (fun error =>
       console_warn ("Failed to get ICD-10 code " ++ code ++ ":") error ;;
       ret None).

(** The characters of a string, as [for ... of] over a string yields them
    (one per byte here). *)
Fixpoint chars (s : string) : list json :=
  match s with
  | EmptyString => []
  | String c r => JStr (String c "") :: chars r
  end.

(** What [for (const x of v)] iterates over, for a truthy [v]. *)
Definition iterate (what : string) (v : json) : M (list json) :=
  match v with
  | JArr l => ret l
  | JStr s => ret (chars s)
  | _ => throw (TypeError (what ++ " is not iterable"))
  end.

(** The loop of [getICD10Chapters] and [getICD11Chapters]: a chapter
    whose fetch fails is skipped. *)
Fixpoint collect_chapters (fuel : nat) (uris : list json)
         (chapters : list ICDChapter) : M (list ICDChapter) :=
  match uris with
  | [] => ret chapters
  | uri :: rest =>
      chapters' <- try_catch
        (chapterData <- getEntityByUri fuel (Some uri) ;;
         match chapterData with
         | Some d => ret (chapters ++ [mkChapter (code d) (title d) uri])%list
         | None => ret chapters
         end)
        (fun _ => ret chapters) ;;
      collect_chapters fuel rest chapters'
  end.

Definition chapters_of (fuel : nat) (endpoint : string) : M (list ICDChapter) :=
  data <- apiRequest fuel endpoint None ;;
  child <- prop data "child" ;;
  match child with
  | Some c =>
      if Js.truthy child
      then uris <- iterate "data.child" c ;; collect_chapters fuel uris []
      else ret []
  | None => ret []
  end.

Definition getICD10Chapters (fuel : nat) : M (list ICDChapter) :=
  chapters_of fuel ("/icd/release/10/" ++ icd10Release this).

(** The loop of [getICD10Children] and [getICD11Children]. *)
Fixpoint collect_children (fuel : nat) (uris : list json)
         (acc : list ICDEntity) : M (list ICDEntity) :=
  match uris with
  | [] => ret acc
  | childUri :: rest =>
      child <- getEntityByUri fuel (Some childUri) ;;
      collect_children fuel rest
        (match child with Some c => (acc ++ [c])%list | None => acc end)
  end.

Definition children_of (fuel : nat) (entity : option ICDEntity) : M (list ICDEntity) :=
  match entity with
  | None => ret []
  | Some e =>
      match children e with
      | None => ret []
      | Some l => collect_children fuel (Js.slice0 20 l) []
      end
  end.

Definition getICD10Children (fuel : nat) (code : string) : M (list ICDEntity) :=
  entity <- getICD10Code fuel code ;;
  children_of fuel entity.

(** *** ICD-11 methods *)

(** The [try] block of [getICD11Code] ends in
    [return this.getEntityByUri(codeinfo.stemId)], which hands the promise
    back without awaiting it: the block is left before that promise
    settles, so the second component of the sum is run after the
    [try]/[catch]. *)
Definition codeinfo_endpoint (code : string) : string :=
  "/icd/release/11/" ++ icd11Release this ++ "/mms/codeinfo/" ++ code.

Definition getICD11Code (fuel : nat) (code : string) : M (option ICDEntity) :=
  r <- try_catch
         (codeinfo <- apiRequest fuel (codeinfo_endpoint code) None ;;
          stemId <- prop codeinfo "stemId" ;;
          if negb (Js.truthy stemId)
          then ret (inl None)
          else ret (inr stemId))
         (fun error =>
            console_warn ("Failed to get ICD-11 code " ++ code ++ ":") error ;;
            ret (inl None)) ;;
  match r with
  | inl v => ret v
  | inr stemId => getEntityByUri fuel stemId
  end.

(** [entities.slice(0, maxResults)] followed by [for ... of]. *)
Definition slice_items (maxResults : Z) (entities : json) : M (list json) :=
  match entities with
  | JArr l => ret (Js.slice0 maxResults l)
  | JStr s => ret (Js.slice0 maxResults (chars s))
  | _ => throw (TypeError "entities.slice is not a function")
  end.

(** The body of the loop of [searchICD11]. *)
Definition search_result_of (item : json) : M ICDSearchResult :=
  theCode <- prop item "theCode" ;;
  ret {| sr_code := or_str theCode "";
         sr_title := or_str (Js.get item "title") "";
         sr_score := Js.get item "score";
         sr_uri := or_str (Js.get item "id") "";
         sr_chapter := Js.get item "chapter" |}.

Fixpoint collect_results (items : list json) (results : list ICDSearchResult)
  : M (list ICDSearchResult) :=
  match items with
  | [] => ret results
  | item :: rest =>
      r <- search_result_of item ;;
      collect_results rest (results ++ [r])%list
  end.

(** The parameters of the flexible search. *)
Definition search_params (query : string) (chapterFilter : option string)
  : list (string * string) :=
  let params :=
    [("q", query); ("useFlexisearch", "true"); ("flatResults", "true");
     ("highlightingEnabled", "false")] in
  match chapterFilter with
  | Some f => if falsy chapterFilter then params
              else (params ++ [("chapterFilter", f)])%list
  | None => params
  end.

Definition search_endpoint : string :=
  "/icd/release/11/" ++ icd11Release this ++ "/mms/search".

(** [maxResults] is [None] when the argument is left out (default 10). *)
Definition searchICD11 (fuel : nat) (query : string) (maxResults : option Z)
           (chapterFilter : option string) : M (list ICDSearchResult) :=
  let maxResults := match maxResults with Some n => n | None => 10 end in
  data <- apiRequest fuel search_endpoint
            (Some (search_params query chapterFilter)) ;;
  dest <- prop data "destinationEntities" ;;
  let entities :=
    match Js.or dest (Some (JArr [])) with
    | Some e => e
    | None => JArr []
    end in
  items <- slice_items maxResults entities ;;
  collect_results items [].

Definition getICD11Chapters (fuel : nat) : M (list ICDChapter) :=
  chapters_of fuel ("/icd/release/11/" ++ icd11Release this ++ "/mms").

Definition getICD11Children (fuel : nat) (code : string) : M (list ICDEntity) :=
  entity <- getICD11Code fuel code ;;
  children_of fuel entity.

End Client.

(** ** [handlers.ts] *)

Definition text_result (t : string) : ToolResult :=
  {| content := [mkText t]; isError := None |}.

Definition error_result (t : string) : ToolResult :=
  {| content := [mkText t]; isError := Some true |}.

(** [!s] and truthiness of an optional string field of an entity. *)
Definition present (s : option string) : bool := negb (falsy s).

(** The bullet list of [formatEntity] under [heading]. *)
Definition bullets (heading : string) (items : option (list json)) : list string :=
  match items with
  | Some l =>
      if (0 <? Z.of_nat (List.length l))
      then List.concat
             [ [Str.nl ++ heading];
               map (fun i => "  - " ++ Js.string_of_json i) (Js.slice0 10 l);
               if (10 <? Z.of_nat (List.length l))
               then ["  - ... and " ++ Str.of_Z (Z.of_nat (List.length l) - 10)
                       ++ " more"]
               else [] ]
      else []
  | None => []
  end.

Definition option_string_eqb (a b : option string) : bool :=
  match a, b with
  | Some x, Some y => String.eqb x y
  | None, None => true
  | _, _ => false
  end.

(** The pushes onto [lines] are the members of the concatenated list, in
    the order of the source. *)
Definition formatEntity (entity : ICDEntity) (version : string) : string :=
  let lines :=
    List.concat
      [ ["**" ++ Js.string_of_json (code entity) ++ "**: " ++ title entity];
        match definition entity with
        | Some d => if present (definition entity)
                    then [Str.nl ++ "**Definition:** " ++ d] else []
        | None => []
        end;
        match longDefinition entity with
        | Some d =>
            if present (longDefinition entity)
               && negb (option_string_eqb (longDefinition entity) (definition entity))
            then [Str.nl ++ "**Details:** " ++ d] else []
        | None => []
        end;
        match codingNote entity with
        | Some d => if present (codingNote entity)
                    then [Str.nl ++ "**Coding Note:** " ++ d] else []
        | None => []
        end;
        bullets "**Includes:**" (inclusions entity);
        bullets "**Excludes:**" (exclusions entity);
        if Js.truthy (browserUrl entity)
        then [Str.nl ++ "**Browser:** " ++ Js.String_ (browserUrl entity)]
        else [];
        [Str.nl ++ "_ICD-" ++ version ++ "_"] ] in
  Str.join Str.nl lines.

Definition search_v10_text : string :=
  "ICD-10 search is not supported by the WHO API. Use ICD-11 search or lookup by code."
    ++ Str.nl ++ Str.nl
    ++ Str.quoted "Try: {^action^: ^search^, ^query^: ^pneumonia^, ^version^: ^11^}".

Definition not_found_text (code version : string) : string :=
  "ICD-" ++ version ++ " code '" ++ code ++ "' not found." ++ Str.nl ++ Str.nl
    ++ Str.quoted "Try searching: {^action^: ^search^, ^query^: ^...^, ^version^: ^"
    ++ version ++ Str.quoted "^}".

Definition no_children_text (code : string) : string :=
  "No child codes found for '" ++ code ++ "'. This may be a leaf-level code.".

Definition help_text : string := Str.quoted
"# ICD MCP Server

Supports both **ICD-10** and **ICD-11** via the WHO ICD-API.

## Actions

**lookup** - Get code details
  {^action^: ^lookup^, ^code^: ^A00^}              (ICD-11 default)
  {^action^: ^lookup^, ^code^: ^J18.9^, ^version^: ^10^}

**search** - Find codes by keyword (ICD-11 only)
  {^action^: ^search^, ^query^: ^pneumonia^}
  {^action^: ^search^, ^query^: ^diabetes^, ^chapter^: ^05^}

**chapters** - List chapters
  {^action^: ^chapters^}
  {^action^: ^chapters^, ^version^: ^10^}

**children** - Get subcodes
  {^action^: ^children^, ^code^: ^BA00^}

**api** - Raw WHO API request
  {^action^: ^api^, ^path^: ^/icd/release/11/2024-01/mms^}

## ICD-10 vs ICD-11

| Feature | ICD-10 | ICD-11 |
|---------|--------|--------|
| Lookup | Yes | Yes |
| Search | No* | Yes |
| Chapters | Yes | Yes |
| Children | Yes | Yes |

*ICD-10 search not supported by WHO API

## More Info
- ICD-10: https://icd.who.int/browse10
- ICD-11: https://icd.who.int/browse11".

(** [entity.code], for where a parameter of the source is named [code]. *)
Definition code_of (entity : ICDEntity) : json := code entity.

Section Handlers.

Variable E : env.
Variable client : WHOICDClient.

Definition handleLookup (fuel : nat) (code version : string) : M ToolResult :=
  entity <- (if String.eqb version "10"
             then getICD10Code E client fuel code
             else getICD11Code E client fuel code) ;;
  match entity with
  | None => ret (text_result (not_found_text code version))
  | Some e => ret (text_result (formatEntity e version))
  end.

(** The numbered lines of [handleSearch], counting from [i + 1]. *)
Fixpoint result_lines (i : nat) (results : list ICDSearchResult) : list string :=
  match results with
  | [] => []
  | result :: rest =>
      (Str.of_nat (i + 1) ++ ". **" ++ Js.string_of_json (sr_code result)
         ++ "**: " ++ Js.string_of_json (sr_title result))
        :: result_lines (S i) rest
  end.

Definition handleSearch (fuel : nat) (query : string) (maxResults : Z)
           (chapter : option string) : M ToolResult :=
  results <- searchICD11 E client fuel query (Some maxResults) chapter ;;
  match results with
  | [] => ret (text_result ("No ICD-11 codes found for '" ++ query
                              ++ "'. Try different search terms."))
  | _ =>
      let lines :=
        List.concat
          [ ["**ICD-11 Search Results for '" ++ query ++ "':**" ++ Str.nl];
            result_lines 0 results;
            [Str.nl ++ Str.quoted
               "Use {^action^: ^lookup^, ^code^: ^...^} for full details."] ] in
      ret (text_result (Str.join Str.nl lines))
  end.

Definition handleChapters (fuel : nat) (version : string) : M ToolResult :=
  chapters <- (if String.eqb version "10"
               then getICD10Chapters E client fuel
               else getICD11Chapters E client fuel) ;;
  match chapters with
  | [] => ret (text_result ("Could not retrieve ICD-" ++ version ++ " chapters."))
  | _ =>
      let lines :=
        List.concat
          [ ["**ICD-" ++ version ++ " Chapters:**" ++ Str.nl];
            map (fun chapter => "- **" ++ Js.string_of_json (ch_code chapter)
                                  ++ "**: " ++ ch_title chapter) chapters;
            [Str.nl ++ Str.quoted
               "Use {^action^: ^children^, ^code^: ^...^} to explore a chapter."] ] in
      ret (text_result (Str.join Str.nl lines))
  end.

Definition handleChildren (fuel : nat) (code version : string) : M ToolResult :=
  children <- (if String.eqb version "10"
               then getICD10Children E client fuel code
               else getICD11Children E client fuel code) ;;
  match children with
  | [] => ret (text_result (no_children_text code))
  | _ =>
      let lines :=
        List.concat
          [ ["**Child codes under " ++ code ++ " (ICD-" ++ version ++ "):**"
               ++ Str.nl];
            map (fun child => "- **" ++ Js.string_of_json (code_of child)
                                ++ "**: " ++ title child) children ] in
      ret (text_result (Str.join Str.nl lines))
  end.

Definition handleApi (fuel : nat) (path : string) : M ToolResult :=
  if negb (Str.startsWith path "/")
  then ret (error_result "Path must start with /")
  else
    try_catch
      (result <- apiRequest E client fuel path None ;;
       ret (text_result (Js.stringify2 result)))
      (fun error => ret (error_result ("API Error: " ++ message error))).

Definition handleHelp : ToolResult := text_result help_text.

(** The body of the [try] block of [handleAction]. *)
Definition dispatch (fuel : nat) (params : ICDParamsType) : M ToolResult :=
  let version := or_default (p_version params) "11" in
  if String.eqb (p_action params) "lookup" then
    match p_code params with
    | Some code =>
        if falsy (p_code params) then throw (Error "code required for lookup")
        else handleLookup fuel code version
    | None => throw (Error "code required for lookup")
    end
  else if String.eqb (p_action params) "search" then
    match p_query params with
    | Some query =>
        if falsy (p_query params) then throw (Error "query required for search")
        else if String.eqb version "10" then ret (error_result search_v10_text)
        else handleSearch fuel query
               (match p_max_results params with
                | Some n => if n =? 0 then 10 else n
                | None => 10
                end)
               (p_chapter params)
    | None => throw (Error "query required for search")
    end
  else if String.eqb (p_action params) "chapters" then
    handleChapters fuel version
  else if String.eqb (p_action params) "children" then
    match p_code params with
    | Some code =>
        if falsy (p_code params) then throw (Error "code required for children")
        else handleChildren fuel code version
    | None => throw (Error "code required for children")
    end
  else if String.eqb (p_action params) "api" then
    match p_path params with
    | Some path =>
        if falsy (p_path params) then throw (Error "path required for api")
        else handleApi fuel path
    | None => throw (Error "path required for api")
    end
  else if String.eqb (p_action params) "help" then
    ret handleHelp
  else
    ret (error_result ("Unknown action: " ++ p_action params)).

Definition handleAction (fuel : nat) (params : ICDParamsType) : M ToolResult :=
  try_catch (dispatch fuel params)
    (fun error => ret (error_result ("Error: " ++ message error))).

End Handlers.

(** ** Sample environments and requests *)

Module Sample.

Definition client : WHOICDClient :=
  new_WHOICDClient (mkConfig "id" "secret" None None None).

(** A token endpoint that grants a fresh token on every call, valid for
    an hour. *)
Definition grant (h : history) (q : token_request) : fetched token_response :=
  Responded (mkTokenResponse 200 ""
               (Some (mkTokenData ("token-" ++ Str.of_nat (auth_calls h)) 3600))).

(** A clock that advances one second per event. *)
Definition ticking (h : history) : Z := 1000 * Z.of_nat (List.length h).

Definition answer (st : Z) (b : option json) : fetched response :=
  Responded (mkResponse st "" b).

(** Every GET is answered 401. *)
Definition always401 : env :=
  mkEnv ticking grant (fun _ _ => answer 401 None).

(** The first two GETs are answered 401, the following ones 200. *)
Definition twice401 : env :=
  mkEnv ticking grant
        (fun h _ => if Nat.ltb (get_calls h) 2 then answer 401 None
                    else answer 200 (Some (JObj [("code", JStr "BA00")]))).

(** Every GET is answered 404. *)
Definition always404 : env :=
  mkEnv ticking grant (fun _ _ => answer 404 None).

(** Every GET is answered 200 with the same body. *)
Definition always200 (b : json) : env :=
  mkEnv ticking grant (fun _ _ => answer 200 (Some b)).

(** A record without children. *)
Definition leaf : json := JObj [("code", JStr "BA00"); ("title", JStr "Cholera")].

(** A search answer with three hits; the second has no title and the
    third has neither code nor identifier. *)
Definition hits : list json :=
  [ JObj [("theCode", JStr "CA40"); ("title", JStr "Pneumonia");
          ("score", JNum 1); ("id", JStr "http://id.who.int/icd/entity/1");
          ("chapter", JStr "12")];
    JObj [("theCode", JStr "CA40.0"); ("id", JStr "http://id.who.int/icd/entity/2")];
    JObj [("title", JStr "Viral pneumonia")] ].

Definition three_hits : env :=
  always200 (JObj [("destinationEntities", JArr hits)]).

End Sample.

(** ** Predicates on runs *)

(** The world an outcome ends in, if it ends. *)
Definition final {A} (o : outcome A) : option world :=
  match o with
  | Ret _ w => Some w
  | Throw _ w => Some w
  | Diverge => None
  end.

(** [m] ends (resolves or rejects) from every world. *)
Definition terminates {A} (m : M A) : Prop := forall w, m w <> Diverge.

(** [m] never rejects. *)
Definition never_throws {A} (m : M A) : Prop := forall w e w', m w <> Throw e w'.

(** When [m] ends from [w], the worlds before and after are related by [R]. *)
Definition run_rel {A} (R : world -> world -> Prop) (m : M A) : Prop :=
  forall w w', final (m w) = Some w' -> R w w'.

(** The run issued no GET: its events are a prefix without GETs. *)
Definition quiet (w w' : world) : Prop :=
  exists evs, trace w' = (evs ++ trace w)%list /\ forallb (fun e => negb (is_get e)) evs = true.

(** The run issued at most [n] GETs. *)
Definition gets_at_most (n : nat) (w w' : world) : Prop :=
  (get_calls (trace w') <= get_calls (trace w) + n)%nat.

(** The number of most recent GETs in a row that were answered 401. *)
Fixpoint trailing401 (h : history) : nat :=
  match h with
  | [] => 0%nat
  | EvGet _ (Responded r) :: h' =>
      if status r =? 401 then S (trailing401 h') else 0%nat
  | EvGet _ (Rejected _) :: _ => 0%nat
  | _ :: h' => trailing401 h'
  end.

(** The service answers 401 at most [K] times in a row. *)
Definition bounded401 (E : env) (K : nat) : Prop :=
  forall h q r, api E h q = Responded r -> status r = 401 -> (trailing401 h < K)%nat.

(** The history at the moment [ensureToken] would call the token
    endpoint: the expiry check reads the clock only when a token is
    cached. *)
Definition history_before_auth (E : env) (w : world) : history :=
  if falsy (accessToken w) then trace w
  else EvNow (clock E (trace w)) :: trace w.

(** The lookup and the children listing that [handleLookup] and
    [handleChildren] choose by version. *)
Definition lookup_by_version (E : env) (client : WHOICDClient) (fuel : nat)
           (version code : string) : M (option ICDEntity) :=
  if String.eqb version "10"
  then getICD10Code E client fuel code
  else getICD11Code E client fuel code.

Definition children_by_version (E : env) (client : WHOICDClient) (fuel : nat)
           (version code : string) : M (list ICDEntity) :=
  if String.eqb version "10"
  then getICD10Children E client fuel code
  else getICD11Children E client fuel code.

(** What [searchICD11] makes of one hit: code, title and identifier are
    the hit's when it has them and the empty string when they are absent;
    score and chapter are passed on, [undefined] when absent. *)
Definition hit_result (item : json) (r : ICDSearchResult) : Prop :=
  sr_code r = or_str (Js.get item "theCode") ""
  /\ sr_title r = or_str (Js.get item "title") ""
  /\ sr_uri r = or_str (Js.get item "id") ""
  /\ (Js.get item "theCode" = None -> sr_code r = JStr "")
  /\ (Js.get item "title" = None -> sr_title r = JStr "")
  /\ (Js.get item "id" = None -> sr_uri r = JStr "")
  /\ sr_score r = Js.get item "score"
  /\ sr_chapter r = Js.get item "chapter".

(** ** [index.ts]: the tool callback of [createServer] *)

(** The bindings of the worker; a binding that is not set is [undefined]. *)
Record Env : Type := mkBindings {
  WHO_CLIENT_ID : option string;
  WHO_CLIENT_SECRET : option string;
  ICD10_RELEASE : option string;
  ICD11_RELEASE : option string;
  WHO_API_LANGUAGE : option string
}.

(** What a form field holds for a binding: [URLSearchParams] writes an
    [undefined] value as the text "undefined". *)
Definition binding_text (b : option string) : string :=
  match b with
  | Some s => s
  | None => "undefined"
  end.

(** The client [createServer] constructs from the bindings. *)
Definition createClient (env : Env) : WHOICDClient :=
  new_WHOICDClient
    (mkConfig (binding_text (WHO_CLIENT_ID env))
              (binding_text (WHO_CLIENT_SECRET env))
              (Some (or_default (ICD10_RELEASE env) "2019"))
              (Some (or_default (ICD11_RELEASE env) "2024-01"))
              (Some (or_default (WHO_API_LANGUAGE env) "en"))).

(** The callback registered for the tool [icd].  The server has already
    validated [args] against the shape of [ICDParams], so
    [ICDParams.parse(args)] hands them back. *)
Definition icd_tool (E : env) (env : Env) (fuel : nat) (args : ICDParamsType)
  : M ToolResult :=
  if falsy (WHO_CLIENT_ID env) || falsy (WHO_CLIENT_SECRET env)
  then ret (error_result "Error: WHO API credentials not configured")
  else handleAction E (createClient env) fuel args.

(** ** Further sample environments *)

Module Scenario.



(** Every GET is answered 429. *)
Definition limited : env :=
  mkEnv Sample.ticking Sample.grant (fun _ _ => Sample.answer 429 None).

(** The root of a release with two chapters, of which the service only
    knows the second. *)
Definition chapter_uri (n : string) : string :=
  "http://id.who.int/icd/release/11/2024-01/mms/" ++ n.

Definition root : json :=
  JObj [("child", JArr [JStr (chapter_uri "1"); JStr (chapter_uri "2")])].

Definition chapter2 : json :=
  JObj [("code", JStr "02"); ("title", JObj [("@value", JStr "Neoplasms")])].

Definition release11 : env :=
  mkEnv Sample.ticking Sample.grant
        (fun _ q =>
           if String.eqb (url q) "https://id.who.int/icd/release/11/2024-01/mms"
           then Sample.answer 200 (Some root)
           else if String.eqb (url q)
                     "https://id.who.int/icd/release/11/2024-01/mms/2"
           then Sample.answer 200 (Some chapter2)
           else if String.eqb (url q)
                     "https://id.who.int/icd/release/11/2024-01/mms/codeinfo/02"
           then Sample.answer 200 (Some (JObj [("stemId", JStr (chapter_uri "2"))]))
           else Sample.answer 404 None).

Definition bindings : Env :=
  mkBindings (Some "id") (Some "secret") None None None.

(** Ten inclusion items. *)
Definition ten : list json := map JNum [1; 2; 3; 4; 5; 6; 7; 8; 9; 10].

(** A record whose declared child is a number. *)
Definition odd_parent : json :=
  JObj [("code", JStr "X00"); ("child", JArr [JNum 5])].


(** Search answers: one whose only hit is [null], one whose hits are a
    number, and one whose body is [null]. *)
Definition null_hit : env :=
  Sample.always200 (JObj [("destinationEntities", JArr [JNull])]).

Definition odd_hits : env :=
  Sample.always200 (JObj [("destinationEntities", JNum 5)]).

Definition null_body : env := Sample.always200 JNull.

(** An ICD-10 code with two declared children, of which the service
    only knows the first. *)
Definition child_uri (n : string) : string :=
  "http://id.who.int/icd/release/10/2019/" ++ n.

Definition parent_A00 : json :=
  JObj [("code", JStr "A00"); ("title", JStr "Cholera");
        ("child", JArr [JStr (child_uri "A00.0"); JStr (child_uri "A00.1")])].

Definition child_A000 : json :=
  JObj [("code", JStr "A00.0"); ("title", JStr "Classical cholera")].

Definition family : env :=
  mkEnv Sample.ticking Sample.grant
        (fun _ q =>
           if String.eqb (url q) "https://id.who.int/icd/release/10/2019/A00"
           then Sample.answer 200 (Some parent_A00)
           else if String.eqb (url q)
                     "https://id.who.int/icd/release/10/2019/A00.0"
           then Sample.answer 200 (Some child_A000)
           else Sample.answer 404 None).

End Scenario.

(** ** Further predicates *)

(** [l1] is [l2] with some elements left out. *)
Inductive subseq {A : Type} : list A -> list A -> Prop :=
| subseq_nil : subseq [] []
| subseq_skip (x : A) (l1 l2 : list A) : subseq l1 l2 -> subseq l1 (x :: l2)
| subseq_take (x : A) (l1 l2 : list A) : subseq l1 l2 -> subseq (x :: l1) (x :: l2).

(** [resolved E client fuel uris w l w']: fetching the URIs one after
    the other with [getEntityByUri], each from the world the fetch before
    it left, ends in [w'] and [l] holds, in the order of the URIs, the
    entities of those that resolved; a URI whose fetch gave [null] adds
    nothing. *)
Inductive resolved (E : env) (client : WHOICDClient) (fuel : nat)
  : list json -> world -> list ICDEntity -> world -> Prop :=
| resolved_nil (w : world) : resolved E client fuel [] w [] w
| resolved_hit (uri : json) (rest : list json) (w w1 w' : world)
               (c : ICDEntity) (l : list ICDEntity) :
    getEntityByUri E client fuel (Some uri) w = Ret (Some c) w1 ->
    resolved E client fuel rest w1 l w' ->
    resolved E client fuel (uri :: rest) w (c :: l) w'
| resolved_miss (uri : json) (rest : list json) (w w1 w' : world)
                (l : list ICDEntity) :
    getEntityByUri E client fuel (Some uri) w = Ret None w1 ->
    resolved E client fuel rest w1 l w' ->
    resolved E client fuel (uri :: rest) w l w'.

(** Two optional lists that [formatEntity] cannot tell apart: they have
    the same first ten items and the same length. *)
Definition same_shown (a b : option (list json)) : Prop :=
  match a, b with
  | None, None => True
  | Some l1, Some l2 =>
      firstn 10 l1 = firstn 10 l2 /\ List.length l1 = List.length l2
  | _, _ => False
  end.

(** Every element is a string. *)
Definition all_strings (l : list json) : bool :=
  forallb (fun j => Js.is_string (Some j)) l.

(** * Properties *)

(** ** The string and JSON helpers on examples *)

Example quoted_ex : Str.quoted "a^b" = "a" ++ Str.dq ++ "b".
Proof. reflexivity. Qed.

Example of_Z_ex : Str.of_Z 401 = "401" /\ Str.of_Z (-5) = "-5" /\ Str.of_Z 0 = "0".
Proof. vm_compute. auto. Qed.

Example replace_ex :
  Str.replace_first "http://" "https://" "http://id.who.int/icd" = "https://id.who.int/icd"
  /\ Str.replace_first "https://id.who.int" "" "https://id.who.int/icd/x" = "/icd/x"
  /\ Str.replace_first "zz" "" "abc" = "abc".
Proof. vm_compute. auto. Qed.

Example stringify_ex :
  Js.stringify (JObj [("value", JStr "Cholera")])
  = Str.quoted "{^value^:^Cholera^}"
  /\ Js.stringify (JArr [JNum 1; JNull; JStr ("a" ++ Str.nl)]) = Str.quoted "[1,null,^a\n^]"
  /\ Js.stringify2 (JObj [("a", JArr [JNum 1; JNum 2]); ("b", JObj [])])
     = Str.quoted "{
  ^a^: [
    1,
    2
  ],
  ^b^: {}
}".
Proof. vm_compute. auto. Qed.

Example String_ex :
  Js.String_ (Some (JArr [JNum 1; JNull; JStr "x"])) = "1,,x"
  /\ Js.String_ (Some (JObj [])) = "[object Object]".
Proof. vm_compute. auto. Qed.

Example slice0_ex :
  Js.slice0 2 [1;2;3] = [1;2] /\ Js.slice0 (-1) [1;2;3] = [1;2]
  /\ Js.slice0 0 [1;2;3] = [] /\ Js.slice0 (-5) [1;2;3] = [].
Proof. vm_compute. auto. Qed.

(** ** Reasoning about runs *)

Lemma terminates_ret {A} (a : A) : terminates (ret a).
Proof. intros w; discriminate. Qed.

Lemma terminates_throw {A} (e : error) : terminates (@throw A e).
Proof. intros w; discriminate. Qed.

Lemma terminates_bind {A B} (m : M A) (k : A -> M B) :
  terminates m -> (forall a, terminates (k a)) -> terminates (bind m k).
Proof.
  intros Hm Hk w. unfold bind. specialize (Hm w).
  destruct (m w) as [a w'|e w'|]; try discriminate; [apply Hk | congruence].
Qed.

Lemma terminates_try {A} (m : M A) (h : error -> M A) :
  terminates m -> (forall e, terminates (h e)) -> terminates (try_catch m h).
Proof.
  intros Hm Hh w. unfold try_catch. specialize (Hm w).
  destruct (m w) as [a w'|e w'|]; try discriminate; [apply Hh | congruence].
Qed.

Lemma never_throws_try {A} (m : M A) (h : error -> M A) :
  (forall e, never_throws (h e)) -> never_throws (try_catch m h).
Proof.
  intros Hh w e w'. unfold try_catch.
  destruct (m w) as [a w1|e1 w1|]; try discriminate. apply Hh.
Qed.

Lemma never_throws_ret {A} (a : A) : never_throws (ret a).
Proof. intros w e w'; discriminate. Qed.

(** An outcome that neither rejects nor diverges is a result. *)
Lemma returns_of {A} (m : M A) (w : world) :
  m w <> Diverge -> (forall e w', m w <> Throw e w') -> exists a w', m w = Ret a w'.
Proof.
  intros Hd Ht. destruct (m w) as [a w'|e w'|]; eauto.
  - exfalso; eapply Ht; reflexivity.
  - congruence.
Qed.

Lemma quiet_trailing401 w w' : quiet w w' -> trailing401 (trace w') = trailing401 (trace w).
Proof.
  intros [evs [H F]]. rewrite H. clear H. induction evs as [|e evs IH]; [reflexivity|].
  simpl in F. apply andb_true_iff in F as [Fe F]. destruct e; simpl in *; try discriminate; auto.
Qed.

Lemma quiet_get_calls w w' : quiet w w' -> get_calls (trace w') = get_calls (trace w).
Proof.
  intros [evs [H F]]. unfold get_calls. rewrite H. clear H.
  induction evs as [|e evs IH]; [reflexivity|].
  simpl in F. apply andb_true_iff in F as [Fe F]. simpl.
  destruct (is_get e); [discriminate | auto].
Qed.

Ltac quiet_by_events :=
  first [ exists (@nil event); split; reflexivity
        | eexists [_]; split; reflexivity
        | eexists [_; _]; split; reflexivity
        | eexists [_; _; _]; split; reflexivity ].

Section ClientFacts.

Variable E : env.
Variable this : WHOICDClient.

(** [ensureToken] always ends, and issues no GET. *)
Lemma ensureToken_quiet w :
  exists w', final (ensureToken E this w) = Some w' /\ quiet w w'.
Proof.
  unfold ensureToken, authenticate, bind, get_accessToken, get_tokenExpiry,
    set_accessToken, set_tokenExpiry, Date_now, fetch_token, json_of, ret, throw.
  destruct (falsy (accessToken w)); simpl.
  - destruct (token_endpoint E (trace w) _) as [e|r]; simpl.
    + eexists; split; [reflexivity | quiet_by_events].
    + destruct (ok (t_status r)); simpl.
      * destruct (t_json r); simpl;
          (eexists; split; [reflexivity | quiet_by_events]).
      * eexists; split; [reflexivity | quiet_by_events].
  - destruct (clock E (trace w) >=? tokenExpiry w); simpl.
    + destruct (token_endpoint E _ _) as [e|r]; simpl.
      * eexists; split; [reflexivity | quiet_by_events].
      * destruct (ok (t_status r)); simpl.
        -- destruct (t_json r); simpl;
             (eexists; split; [reflexivity | quiet_by_events]).
        -- eexists; split; [reflexivity | quiet_by_events].
    + eexists; split; [reflexivity | quiet_by_events].
Qed.

Lemma ensureToken_terminates : terminates (ensureToken E this).
Proof.
  intros w H. destruct (ensureToken_quiet w) as [w' [F _]].
  rewrite H in F. discriminate.
Qed.

End ClientFacts.

(** ** C1: retry on HTTP 401 *)

(** With a token endpoint that always grants, [ensureToken] resolves. *)
Lemma ensureToken_granted (E : env) (this : WHOICDClient) (w : world) :
  token_endpoint E = Sample.grant ->
  exists t w', ensureToken E this w = Ret t w'.
Proof.
  intros HG.
  unfold ensureToken, authenticate, bind, get_accessToken, get_tokenExpiry,
    set_accessToken, set_tokenExpiry, Date_now, fetch_token, json_of, ret, throw.
  rewrite HG.
  destruct (falsy (accessToken w)); simpl; eauto.
  destruct (clock E (trace w) >=? tokenExpiry w); simpl; eauto.
Qed.

(** A status that is [ok] is neither 401 nor 429. *)
Lemma ok_not_401_429 (st : Z) :
  ok st = true -> (st =? 401) = false /\ (st =? 429) = false.
Proof.
  unfold ok. intros H. apply andb_true_iff in H as [H1 H2].
  apply Z.leb_le in H1, H2. split; apply Z.eqb_neq; lia.
Qed.

(** C1 (the code departs from the claim).  A 401 answer does make
    [apiRequest] drop the cached token and issue the same request again,
    which authenticates afresh.  But nothing counts the retries: against
    a service that answers 401 to every GET while the token endpoint
    keeps granting tokens, [apiRequest] does not end for any amount of
    fuel, so the second 401 is not turned into an error; and against a
    service that answers 401 twice and 200 afterwards, the request
    resolves with the third answer, after three GETs and three
    authentication calls: two retries, not one. *)
Theorem apiRequest_second_401_is_retried :
  (forall E this fuel endpoint params w token w1 r,
      ensureToken E this w = Ret token w1 ->
      api E (trace w1) (get_request this endpoint params token) = Responded r ->
      status r = 401 ->
      apiRequest E this (S fuel) endpoint params w
      = apiRequest E this fuel endpoint params
          (mkWorld None (tokenExpiry w1)
                   (EvGet (get_request this endpoint params token) (Responded r)
                      :: trace w1)))
  /\ (forall fuel endpoint params w,
         apiRequest Sample.always401 Sample.client fuel endpoint params w = Diverge)
  /\ (exists w',
         apiRequest Sample.twice401 Sample.client 3
           "/icd/release/11/2024-01/mms" None initial_world
         = Ret (JObj [("code", JStr "BA00")]) w'
         /\ get_calls (trace w') = 3%nat
         /\ auth_calls (trace w') = 3%nat).
Proof.
  split; [|split].
  - intros E this fuel endpoint params w token w1 r Htok Hapi H401.
    cbn [apiRequest]. unfold bind at 1. rewrite Htok.
    unfold bind at 1. unfold fetch_api. rewrite Hapi.
    rewrite H401. reflexivity.
  - induction fuel as [|fuel IH]; intros endpoint params w; [reflexivity|].
    cbn [apiRequest]. unfold bind at 1.
    destruct (ensureToken_granted Sample.always401 Sample.client w eq_refl)
      as [t [w1 Ht]].
    rewrite Ht. unfold bind at 1. unfold fetch_api. simpl.
    unfold bind, set_accessToken. apply IH.
  - eexists. split; [vm_compute; reflexivity|]. split; reflexivity.
Qed.

Lemma apiRequest_second_401_is_retried_witness :
  apiRequest Sample.always401 Sample.client 1 "/icd/release/11/2024-01/mms" None
    (mkWorld (Some "token-0") 5000 [])
  = apiRequest Sample.always401 Sample.client 0 "/icd/release/11/2024-01/mms" None
      (mkWorld None 5000
         [EvGet (get_request Sample.client "/icd/release/11/2024-01/mms" None
                   (Some "token-0"))
                (Sample.answer 401 None);
          EvNow 0]).
Proof.
  apply (proj1 apiRequest_second_401_is_retried Sample.always401 Sample.client
           0%nat "/icd/release/11/2024-01/mms" None
           (mkWorld (Some "token-0") 5000 [])
           (Some "token-0") (mkWorld (Some "token-0") 5000 [EvNow 0])
           (mkResponse 401 "" None));
    reflexivity.
Defined.

(** ** C2: the title of a normalized entity *)






(** ** C3: reuse and refresh of the cached token *)

(** C3.  A cached token whose recorded expiry lies after the current
    time is returned as it is, with no authentication call.  With no
    token cached, or with the current time at or past the recorded
    expiry, [ensureToken] makes exactly one authentication call, whether
    it succeeds or not; when the token endpoint answers with success,
    the new token is returned and cached, and the recorded expiry is the
    clock reading that follows plus (lifetime - 300) seconds, in
    milliseconds.  The request waits for this: when [ensureToken] fails,
    [apiRequest] fails the same way without a GET, and otherwise its GET
    is issued from the world [ensureToken] left, with the token it
    returned. *)
Theorem ensureToken_reuses_or_refreshes (E : env) (this : WHOICDClient) (w : world) :
  (falsy (accessToken w) = false ->
   clock E (trace w) < tokenExpiry w ->
   ensureToken E this w
   = Ret (accessToken w) (record (EvNow (clock E (trace w))) w)
   /\ auth_calls (trace (record (EvNow (clock E (trace w))) w))
      = auth_calls (trace w))
  /\ (falsy (accessToken w) = true \/ tokenExpiry w <= clock E (trace w) ->
      (exists w',
          final (ensureToken E this w) = Some w'
          /\ auth_calls (trace w') = S (auth_calls (trace w)))
      /\ (forall r data,
             token_endpoint E (history_before_auth E w) (credentials this)
             = Responded r ->
             ok (t_status r) = true ->
             t_json r = Some data ->
             let h := EvAuth (credentials this) (Responded r)
                        :: history_before_auth E w in
             let now := clock E h in
             ensureToken E this w
             = Ret (Some (access_token data))
                   (mkWorld (Some (access_token data))
                            (now + (expires_in data - 300) * 1000)
                            (EvNow now :: h))))
  /\ (forall fuel endpoint params e w1,
         ensureToken E this w = Throw e w1 ->
         apiRequest E this (S fuel) endpoint params w = Throw e w1)
  /\ (forall fuel endpoint params token w1 r j,
         ensureToken E this w = Ret token w1 ->
         api E (trace w1) (get_request this endpoint params token) = Responded r ->
         ok (status r) = true ->
         body r = Some j ->
         apiRequest E this (S fuel) endpoint params w
         = Ret j (record (EvGet (get_request this endpoint params token)
                                (Responded r)) w1)).
Proof.
  unfold history_before_auth. split; [|split; [|split]];
    [| |intros fuel endpoint params e w1 H; cbn [apiRequest]; unfold bind at 1;
        rewrite H; reflexivity
      |intros fuel endpoint params token w1 r j H Hapi Hok Hbody;
       cbn [apiRequest]; unfold bind at 1; rewrite H;
       unfold bind at 1; unfold fetch_api; rewrite Hapi;
       destruct (ok_not_401_429 _ Hok) as [H1 H2];
       rewrite H1, H2, Hok, Hbody; reflexivity].
  - intros Htok Hfresh.
    unfold ensureToken, bind, get_accessToken, get_tokenExpiry, Date_now, ret.
    rewrite Htok. simpl.
    replace (clock E (trace w) >=? tokenExpiry w) with false
      by (symmetry; rewrite Z.geb_leb; apply Z.leb_gt; exact Hfresh).
    split; reflexivity.
  - intros Hstale.
    unfold ensureToken, authenticate, bind, get_accessToken, get_tokenExpiry,
      set_accessToken, set_tokenExpiry, Date_now, fetch_token, json_of, ret, throw.
    destruct (falsy (accessToken w)) eqn:Htok; simpl.
    + split.
      * destruct (token_endpoint E (trace w) _) as [e|r]; simpl;
          [eexists; split; reflexivity|].
        destruct (ok (t_status r)); simpl; [|eexists; split; reflexivity].
        destruct (t_json r); simpl; eexists; split; reflexivity.
      * intros r data Hr Hok Hjs. rewrite Hr. simpl. rewrite Hok. simpl.
        rewrite Hjs. reflexivity.
    + destruct Hstale as [Hc|Hexp]; [discriminate|].
      replace (clock E (trace w) >=? tokenExpiry w) with true
        by (symmetry; rewrite Z.geb_leb; apply Z.leb_le; exact Hexp).
      simpl. split.
      * destruct (token_endpoint E _ _) as [e|r]; simpl;
          [eexists; split; reflexivity|].
        destruct (ok (t_status r)); simpl; [|eexists; split; reflexivity].
        destruct (t_json r); simpl; eexists; split; reflexivity.
      * intros r data Hr Hok Hjs. rewrite Hr. simpl. rewrite Hok. simpl.
        rewrite Hjs. reflexivity.
Qed.

Lemma ensureToken_reuses_or_refreshes_witness :
  (ensureToken Sample.always404 Sample.client (mkWorld (Some "token-0") 5000 [])
   = Ret (Some "token-0") (mkWorld (Some "token-0") 5000 [EvNow 0]))
  /\ (ensureToken Sample.always404 Sample.client initial_world
      = Ret (Some "token-0")
            (mkWorld (Some "token-0") (1000 + (3600 - 300) * 1000)
                     [EvNow 1000;
                      EvAuth (credentials Sample.client)
                             (Sample.grant [] (credentials Sample.client))]))
  /\ (exists w',
         final (ensureToken Sample.always404 Sample.client
                  (mkWorld (Some "token-0") 500 [EvNow 5000])) = Some w'
         /\ auth_calls (trace w') = 1%nat).
Proof.
  split; [|split].
  - apply (proj1 (ensureToken_reuses_or_refreshes Sample.always404 Sample.client
                    (mkWorld (Some "token-0") 5000 []))); [reflexivity | reflexivity].
  - apply (proj2 (proj1 (proj2 (ensureToken_reuses_or_refreshes Sample.always404
                           Sample.client initial_world))
                        (or_introl eq_refl))
                 (mkTokenResponse 200 "" (Some (mkTokenData "token-0" 3600)))
                 (mkTokenData "token-0" 3600));
      reflexivity.
  - assert (Hstale : 500 <= Sample.ticking [EvNow 5000])
      by (vm_compute; intro; discriminate).
    apply (proj1 (proj1 (proj2 (ensureToken_reuses_or_refreshes Sample.always404
                           Sample.client
                           (mkWorld (Some "token-0") 500 [EvNow 5000])))
                        (or_intror Hstale))).
Defined.

(** ** C4: search on version 10 *)

(** C4.  A search request with a non-empty query and version ["10"] is
    answered with the error-flagged explanation that ICD-10 search is not
    supported upstream; the world is left as it was, so neither the token
    endpoint nor the API was called. *)
Theorem search_v10_rejected
        (E : env) (client : WHOICDClient) (fuel : nat)
        (p : ICDParamsType) (q : string) (w : world) :
  p_action p = "search" ->
  p_query p = Some q ->
  q <> "" ->
  p_version p = Some "10" ->
  exists r,
    handleAction E client fuel p w = Ret r w
    /\ isError r = Some true
    /\ content r = [mkText search_v10_text]
    /\ String.prefix "ICD-10 search is not supported by the WHO API"
                     search_v10_text = true.
Proof.
  intros Ha Hq Hne Hv. exists (error_result search_v10_text).
  apply String.eqb_neq in Hne.
  unfold handleAction, dispatch, try_catch.
  rewrite Ha, Hq, Hv. simpl. rewrite Hne. simpl.
  repeat split; reflexivity.
Qed.

Lemma search_v10_rejected_witness :
  exists r,
    handleAction Sample.always404 Sample.client 1
      (mkParams "search" None (Some "pneumonia") (Some "10") None None None)
      initial_world
    = Ret r initial_world
    /\ isError r = Some true
    /\ content r = [mkText search_v10_text]
    /\ String.prefix "ICD-10 search is not supported by the WHO API"
                     search_v10_text = true.
Proof.
  apply (search_v10_rejected Sample.always404 Sample.client 1
           (mkParams "search" None (Some "pneumonia") (Some "10") None None None)
           (q := "pneumonia"));
    [reflexivity | reflexivity | discriminate | reflexivity].
Defined.

(** ** C7: the path of an api request *)

(** C7 as stated fails on the empty path: it does not start with a
    slash, yet it is rejected by the required-field check, with another
    text. *)
Lemma api_empty_path_cex :
  Str.startsWith "" "/" = false
  /\ handleAction Sample.always404 Sample.client 1
       (mkParams "api" None None None None None (Some "")) initial_world
     = Ret (error_result "Error: path required for api") initial_world
  /\ error_result "Error: path required for api"
     <> error_result "Path must start with /".
Proof.
  split; [reflexivity|]. split; [reflexivity | discriminate].
Qed.

(** C7, amended.  An api request whose path is a non-empty string that
    does not start with a slash is answered with the error-flagged text
    "Path must start with /", and the world is left as it was: no network
    call was made. *)
Theorem api_path_without_slash_rejected
        (E : env) (client : WHOICDClient) (fuel : nat)
        (p : ICDParamsType) (path : string) (w : world) :
  p_action p = "api" ->
  p_path p = Some path ->
  path <> "" ->
  Str.startsWith path "/" = false ->
  handleAction E client fuel p w
  = Ret {| content := [mkText "Path must start with /"]; isError := Some true |} w.
Proof.
  intros Ha Hp Hne Hs. apply String.eqb_neq in Hne.
  unfold handleAction, dispatch, try_catch, handleApi.
  rewrite Ha, Hp. simpl. rewrite Hne. simpl. rewrite Hs. reflexivity.
Qed.

Lemma api_path_without_slash_rejected_witness :
  handleAction Sample.always404 Sample.client 1
    (mkParams "api" None None None None None (Some "mms")) initial_world
  = Ret {| content := [mkText "Path must start with /"]; isError := Some true |}
        initial_world.
Proof.
  apply (api_path_without_slash_rejected Sample.always404 Sample.client 1
           (mkParams "api" None None None None None (Some "mms")) (path := "mms"));
    [reflexivity | reflexivity | discriminate | reflexivity].
Defined.

(** ** C10: a result cap of zero *)

(** C10 as stated fails in its last clause: a caller can ask for a list
    of length zero with a negative [max_results].  Against an answer
    with three hits, -3 is passed on as it is and [slice] keeps nothing. *)
Lemma max_results_negative_gives_empty_cex :
  exists w',
    searchICD11 Sample.three_hits Sample.client 1 "pneumonia" (Some (-3)) None
      initial_world = Ret [] w'
    /\ handleAction Sample.three_hits Sample.client 1
         (mkParams "search" None (Some "pneumonia") None None (Some (-3)) None)
         initial_world
       = Ret (text_result
                "No ICD-11 codes found for 'pneumonia'. Try different search terms.")
             w'.
Proof.
  eexists. split; vm_compute; reflexivity.
Qed.

(** C10, amended.  A request with [max_results] equal to 0 is handled
    exactly as the same request without [max_results], whatever the
    action; for a search that is dispatched, the cap handed to
    [handleSearch] is the default 10, so a cap of zero is never passed
    on. *)
Theorem max_results_zero_is_default :
  (forall E client fuel action code query version chapter path w,
      handleAction E client fuel
        (mkParams action code query version chapter (Some 0) path) w
      = handleAction E client fuel
          (mkParams action code query version chapter None path) w)
  /\ (forall E client fuel code q version chapter path,
         q <> "" ->
         or_default version "11" <> "10" ->
         dispatch E client fuel
           (mkParams "search" code (Some q) version chapter (Some 0) path)
         = handleSearch E client fuel q 10 chapter).
Proof.
  split.
  - intros. reflexivity.
  - intros E client fuel code q version chapter path Hq Hv.
    apply String.eqb_neq in Hq. apply String.eqb_neq in Hv.
    unfold dispatch. simpl. rewrite Hq. simpl. rewrite Hv. reflexivity.
Qed.

Lemma max_results_zero_is_default_witness :
  dispatch Sample.three_hits Sample.client 1
    (mkParams "search" None (Some "pneumonia") None None (Some 0) None)
  = handleSearch Sample.three_hits Sample.client 1 "pneumonia" 10 None
  /\ exists w',
      handleAction Sample.three_hits Sample.client 1
        (mkParams "search" None (Some "pneumonia") None None (Some 0) None)
        initial_world
      = Ret (text_result
               (Str.quoted "**ICD-11 Search Results for 'pneumonia':**

1. **CA40**: Pneumonia
2. **CA40.0**: 
3. ****: Viral pneumonia

Use {^action^: ^lookup^, ^code^: ^...^} for full details.")) w'.
Proof.
  split.
  - apply (proj2 max_results_zero_is_default); discriminate.
  - eexists. vm_compute. reflexivity.
Defined.

(** ** C9: truncation and defaults of the search results *)

Lemma Forall_firstn {A} (P : A -> Prop) (l : list A) :
  Forall P l -> forall n, Forall P (firstn n l).
Proof.
  induction 1 as [|x l Hx _ IH]; intros [|n]; simpl; constructor; auto.
Qed.

Lemma search_result_of_spec (item : json) (w : world) :
  item <> JNull ->
  exists r, search_result_of item w = Ret r w /\ hit_result item r.
Proof.
  intros H. unfold search_result_of, prop, bind, ret.
  destruct item; try congruence;
    (eexists; split;
     [ reflexivity
     | unfold hit_result; simpl; repeat split;
       intros Habs; rewrite ?Habs; reflexivity ]).
Qed.

Lemma collect_results_spec (items : list json) :
  Forall (fun i => i <> JNull) items ->
  forall acc w,
  exists rs,
    collect_results items acc w = Ret (acc ++ rs)%list w
    /\ Forall2 hit_result items rs.
Proof.
  induction 1 as [|item items Hi _ IH]; intros acc w.
  - exists []. simpl. rewrite app_nil_r. split; [reflexivity | constructor].
  - destruct (search_result_of_spec w Hi) as [r [Hr Hh]].
    destruct (IH (acc ++ [r])%list w) as [rs [Hrs HF]].
    exists (r :: rs). split.
    + simpl. unfold bind. rewrite Hr, Hrs, <- app_assoc. reflexivity.
    + constructor; assumption.
Qed.

(** C9 as stated fails for a negative maximum, which [slice] counts from
    the end: with three hits and a maximum of -1, two results come back,
    through the client and through the dispatcher.  It also fails for
    answers that are not of the declared shape: a hit that is [null], hits
    that are a number, and a body that is [null] make the search reject
    with a [TypeError]. *)
Lemma searchICD11_negative_max_cex :
  (exists rs w',
      searchICD11 Sample.three_hits Sample.client 1 "pneumonia" (Some (-1)) None
        initial_world = Ret rs w'
      /\ List.length rs = 2%nat
      /\ ~ (Z.of_nat (List.length rs) <= -1))
  /\ (exists w',
         handleAction Sample.three_hits Sample.client 1
           (mkParams "search" None (Some "pneumonia") None None (Some (-1)) None)
           initial_world
         = Ret (text_result
                  (Str.quoted "**ICD-11 Search Results for 'pneumonia':**

1. **CA40**: Pneumonia
2. **CA40.0**: 

Use {^action^: ^lookup^, ^code^: ^...^} for full details.")) w')
  /\ (exists e w',
         searchICD11 Scenario.null_hit Sample.client 1 "pneumonia" (Some 10) None
           initial_world = Throw e w'
         /\ err_class e = "TypeError")
  /\ (exists e w',
         searchICD11 Scenario.odd_hits Sample.client 1 "pneumonia" (Some 10) None
           initial_world = Throw e w'
         /\ err_class e = "TypeError")
  /\ (exists e w',
         searchICD11 Scenario.null_body Sample.client 1 "pneumonia" (Some 10) None
           initial_world = Throw e w'
         /\ err_class e = "TypeError").
Proof.
  split; [|split; [|split; [|split]]].
  - eexists. eexists. split; [vm_compute; reflexivity|].
    split; [reflexivity | simpl; lia].
  - eexists. vm_compute. reflexivity.
  - eexists. eexists. split; [vm_compute; reflexivity | reflexivity].
  - eexists. eexists. split; [vm_compute; reflexivity | reflexivity].
  - eexists. eexists. split; [vm_compute; reflexivity | reflexivity].
Qed.

(** Reading a property of a value that is not [null] does not fail. *)
Lemma prop_not_null (data : json) (k : string) :
  data <> JNull -> prop data k = ret (Js.get data k).
Proof. intros H. destruct data; try reflexivity. congruence. Qed.

(** C9, amended.  For a maximum that is not negative and a search answer
    whose body is not [null], whose [destinationEntities] is absent,
    falsy or a list, and none of whose hits is [null], [searchICD11]
    succeeds and returns the results of the first hits in the order of
    the answer, at most the maximum in number; in each result an absent
    code, title or identifier is the empty string and an absent score or
    chapter is [undefined].  An answer without hits gives the empty
    list. *)
Theorem searchICD11_truncates_and_defaults
        (E : env) (this : WHOICDClient) (fuel : nat) (query : string)
        (maxResults : Z) (chapterFilter : option string)
        (w w' : world) (data : json) (hits : list json) :
  0 <= maxResults ->
  apiRequest E this fuel (search_endpoint this)
    (Some (search_params query chapterFilter)) w = Ret data w' ->
  data <> JNull ->
  Js.get data "destinationEntities" = Some (JArr hits)
  \/ (Js.truthy (Js.get data "destinationEntities") = false /\ hits = []) ->
  Forall (fun i => i <> JNull) hits ->
  exists results,
    searchICD11 E this fuel query (Some maxResults) chapterFilter w
    = Ret results w'
    /\ Z.of_nat (List.length results) <= maxResults
    /\ Forall2 hit_result (firstn (Z.to_nat maxResults) hits) results.
Proof.
  intros Hmax Hreq Hdata Hdest Hhits.
  assert (Hsl : Forall (fun i => i <> JNull) (firstn (Z.to_nat maxResults) hits)).
  { apply Forall_firstn. exact Hhits. }
  destruct (collect_results_spec Hsl [] w') as [rs [Hrs HF]].
  exists rs. split; [|split].
  - unfold searchICD11. unfold bind at 1. rewrite Hreq.
    unfold bind at 1. rewrite (prop_not_null "destinationEntities" Hdata).
    unfold ret at 1.
    assert (Hle : (0 <=? maxResults) = true) by (apply Z.leb_le; exact Hmax).
    assert (Hent : match Js.or (Js.get data "destinationEntities") (Some (JArr [])) with
                   | Some e => e
                   | None => JArr []
                   end = JArr hits).
    { unfold Js.or. destruct Hdest as [Hd | [Hd ->]]; rewrite Hd; reflexivity. }
    rewrite Hent. unfold bind, slice_items, ret at 1, Js.slice0. rewrite Hle.
    exact Hrs.
  - apply Forall2_length in HF. rewrite <- HF.
    pose proof (firstn_le_length (Z.to_nat maxResults) hits). lia.
  - exact HF.
Qed.

Lemma searchICD11_truncates_and_defaults_witness :
  exists results,
    searchICD11 Sample.three_hits Sample.client 1 "pneumonia" (Some 2) None
      initial_world
    = Ret results
          (snd (match apiRequest Sample.three_hits Sample.client 1
                        (search_endpoint Sample.client)
                        (Some (search_params "pneumonia" None)) initial_world with
                | Ret a w' => (a, w')
                | _ => (JNull, initial_world)
                end))
    /\ Z.of_nat (List.length results) <= 2
    /\ Forall2 hit_result (firstn (Z.to_nat 2) Sample.hits) results.
Proof.
  apply (@searchICD11_truncates_and_defaults Sample.three_hits Sample.client 1
           "pneumonia" 2 None initial_world _
           (JObj [("destinationEntities", JArr Sample.hits)]) Sample.hits).
  - lia.
  - vm_compute. reflexivity.
  - discriminate.
  - left. reflexivity.
  - repeat constructor; discriminate.
Defined.

(** ** Termination of the client and the handlers *)

Create HintDb term discriminated.

Lemma terminates_console_warn msg e : terminates (console_warn msg e).
Proof. intros w; discriminate. Qed.

Lemma terminates_prop x k : terminates (prop x k).
Proof. intros w. unfold prop. destruct x; discriminate. Qed.

Lemma terminates_json_of {A} (b : option A) : terminates (json_of b).
Proof. intros w. destruct b; discriminate. Qed.

Lemma terminates_iterate what v : terminates (iterate what v).
Proof. intros w. destruct v; discriminate. Qed.

Lemma terminates_slice_items n v : terminates (slice_items n v).
Proof. intros w. destruct v; discriminate. Qed.

Lemma terminates_set_accessToken t : terminates (set_accessToken t).
Proof. intros w; discriminate. Qed.

#[local] Hint Resolve terminates_ret terminates_throw terminates_console_warn
  terminates_prop terminates_json_of terminates_iterate terminates_slice_items
  terminates_set_accessToken ensureToken_terminates : term.

Ltac term_step :=
  match goal with
  | |- forall _, _ => intro
  | |- terminates (bind _ _) => apply terminates_bind
  | |- terminates (try_catch _ _) => apply terminates_try
  | |- terminates (match ?x with _ => _ end) => destruct x
  | |- terminates _ => solve [auto with term]
  end.
Ltac term := repeat term_step.

Section Bounded.

Variable E : env.
Variable this : WHOICDClient.
Variable K : nat.
Hypothesis HB : bounded401 E K.

(** With at most [K] answers 401 in a row, of which the history already
    ends in some, fuel beyond the remaining ones is enough. *)
Lemma apiRequest_enough_fuel (fuel : nat) (endpoint : string)
      (params : option (list (string * string))) :
  forall w,
    (K - trailing401 (trace w) < fuel)%nat ->
    apiRequest E this fuel endpoint params w <> Diverge.
Proof.
  induction fuel as [|fuel IH]; intros w Hf; [lia|].
  simpl. unfold bind at 1.
  destruct (ensureToken_quiet E this w) as [w1 [Hfin Hq]].
  apply quiet_trailing401 in Hq.
  destruct (ensureToken E this w) as [t w1'|e w1'|]; simpl in Hfin;
    try discriminate.
  injection Hfin as ->.
  unfold bind at 1. unfold fetch_api.
  destruct (api E (trace w1) _) as [e|r] eqn:Hapi; [discriminate|].
  destruct (status r =? 401) eqn:H401.
  - apply Z.eqb_eq in H401. pose proof (HB _ _ Hapi H401) as Hlt.
    unfold bind, set_accessToken. apply IH. simpl.
    replace (status r =? 401) with true by (symmetry; apply Z.eqb_eq; exact H401).
    lia.
  - destruct (status r =? 429); [discriminate|].
    destruct (negb (ok (status r))); [discriminate|].
    apply terminates_json_of.
Qed.

Lemma apiRequest_terminates endpoint params :
  terminates (apiRequest E this (S K) endpoint params).
Proof. intros w. apply apiRequest_enough_fuel. lia. Qed.

Hint Resolve apiRequest_terminates : term.

Lemma parseEntity_terminates data : terminates (parseEntity data).
Proof. unfold parseEntity. term. Qed.

Hint Resolve parseEntity_terminates : term.

Lemma getEntityByUri_terminates uri : terminates (getEntityByUri E this (S K) uri).
Proof. unfold getEntityByUri. term. Qed.

Hint Resolve getEntityByUri_terminates : term.

Lemma getICD10Code_terminates code : terminates (getICD10Code E this (S K) code).
Proof. unfold getICD10Code. term. Qed.

Lemma getICD11Code_terminates code : terminates (getICD11Code E this (S K) code).
Proof. unfold getICD11Code. term. Qed.

Lemma collect_chapters_terminates uris :
  forall acc, terminates (collect_chapters E this (S K) uris acc).
Proof.
  induction uris as [|uri rest IH]; intros acc.
  - apply terminates_ret.
  - change (terminates
              (chapters' <- try_catch
                 (chapterData <- getEntityByUri E this (S K) (Some uri) ;;
                  match chapterData with
                  | Some d => ret (acc ++ [mkChapter (code d) (title d) uri])%list
                  | None => ret acc
                  end)
                 (fun _ => ret acc) ;;
               collect_chapters E this (S K) rest chapters')).
    term.
Qed.

Lemma collect_children_terminates uris :
  forall acc, terminates (collect_children E this (S K) uris acc).
Proof.
  induction uris as [|uri rest IH]; intros acc.
  - apply terminates_ret.
  - change (terminates
              (child <- getEntityByUri E this (S K) (Some uri) ;;
               collect_children E this (S K) rest
                 (match child with Some c => (acc ++ [c])%list | None => acc end))).
    term.
Qed.

Lemma collect_results_terminates items :
  forall acc, terminates (collect_results items acc).
Proof.
  induction items as [|item rest IH]; intros acc.
  - apply terminates_ret.
  - change (terminates (r <- search_result_of item ;;
                        collect_results rest (acc ++ [r])%list)).
    unfold search_result_of. term.
Qed.

Hint Resolve getICD10Code_terminates getICD11Code_terminates
  collect_chapters_terminates collect_children_terminates
  collect_results_terminates : term.

Lemma chapters_of_terminates endpoint : terminates (chapters_of E this (S K) endpoint).
Proof. unfold chapters_of. term. Qed.

Lemma children_of_terminates entity : terminates (children_of E this (S K) entity).
Proof. unfold children_of. term. Qed.

Hint Resolve chapters_of_terminates children_of_terminates : term.

Lemma searchICD11_terminates query maxResults chapterFilter :
  terminates (searchICD11 E this (S K) query maxResults chapterFilter).
Proof. unfold searchICD11. term. Qed.

Hint Resolve searchICD11_terminates : term.

Lemma dispatch_terminates params : terminates (dispatch E this (S K) params).
Proof.
  unfold dispatch, handleLookup, handleSearch, handleChapters, handleChildren,
    handleApi, getICD10Chapters, getICD11Chapters, getICD10Children,
    getICD11Children.
  term.
Qed.

Lemma handleAction_terminates params : terminates (handleAction E this (S K) params).
Proof.
  unfold handleAction. apply terminates_try; [apply dispatch_terminates|].
  intros e. apply terminates_ret.
Qed.

End Bounded.

(** ** C5: no exception leaves the dispatcher *)

Lemma handleAction_never_rejects E client fuel params :
  never_throws (handleAction E client fuel params).
Proof.
  unfold handleAction. apply never_throws_try. intros e. apply never_throws_ret.
Qed.

Lemma bounded401_always404 : bounded401 Sample.always404 0.
Proof.
  intros h q r H H401. simpl in H. injection H as <-. discriminate H401.
Qed.

(** Against a service that answers every GET with 401, a request does
    not end, whatever the fuel. *)
Lemma apiRequest_always401_diverges (fuel : nat) :
  forall endpoint params w,
    apiRequest Sample.always401 Sample.client fuel endpoint params w = Diverge.
Proof.
  induction fuel as [|fuel IH]; intros endpoint params w; [reflexivity|].
  cbn [apiRequest]. unfold bind at 1.
  destruct (ensureToken_granted Sample.always401 Sample.client w eq_refl)
    as [t [w1 Ht]].
  rewrite Ht. unfold bind at 1. unfold fetch_api. simpl.
  unfold bind, set_accessToken. apply IH.
Qed.

(** C5 (the code departs from the claim).  [handleAction] never rejects:
    whatever the parameters, the world and the fuel, its outcome is not
    an exception; a result of the dispatch is passed on, and an exception
    raised inside it becomes the error-flagged text "Error: " followed by
    its message; so do the missing required fields.  When the service
    answers 401 at most [K] times in a row, [handleAction] returns a
    [ToolResult].  But it does not return one for every input: against a
    service that answers 401 to every GET, an api request and a chapters
    request do not end, whatever the fuel, because [apiRequest] retries
    without a bound. *)
Theorem handleAction_never_throws
        (E : env) (client : WHOICDClient) (p : ICDParamsType) (w : world) :
  (forall fuel e w', handleAction E client fuel p w <> Throw e w')
  /\ (forall fuel r w',
         dispatch E client fuel p w = Ret r w' ->
         handleAction E client fuel p w = Ret r w')
  /\ (forall fuel e w',
         dispatch E client fuel p w = Throw e w' ->
         handleAction E client fuel p w
         = Ret {| content := [mkText ("Error: " ++ message e)];
                  isError := Some true |} w')
  /\ (forall fuel,
         (p_action p = "lookup" \/ p_action p = "children") ->
         falsy (p_code p) = true ->
         handleAction E client fuel p w
         = Ret (error_result ("Error: code required for " ++ p_action p)) w)
  /\ (forall fuel,
         p_action p = "search" -> falsy (p_query p) = true ->
         handleAction E client fuel p w
         = Ret (error_result "Error: query required for search") w)
  /\ (forall fuel,
         p_action p = "api" -> falsy (p_path p) = true ->
         handleAction E client fuel p w
         = Ret (error_result "Error: path required for api") w)
  /\ (forall K,
         bounded401 E K ->
         exists r w', handleAction E client (S K) p w = Ret r w')
  /\ (forall fuel,
         handleAction Sample.always401 Sample.client fuel
           (mkParams "api" None None None None None
                     (Some "/icd/release/11/2024-01/mms")) w = Diverge
         /\ handleAction Sample.always401 Sample.client fuel
              (mkParams "chapters" None None None None None None) w = Diverge).
Proof.
  split; [|split; [|split; [|split; [|split; [|split; [|split]]]]]].
  - intros fuel e w'. apply handleAction_never_rejects.
  - intros fuel r w' H. unfold handleAction, try_catch. rewrite H. reflexivity.
  - intros fuel e w' H. unfold handleAction, try_catch. rewrite H. reflexivity.
  - intros fuel Ha Hc. unfold handleAction, try_catch, dispatch.
    destruct Ha as [Ha|Ha]; rewrite Ha; simpl;
      destruct (p_code p) as [c|]; simpl in *; try rewrite Hc; reflexivity.
  - intros fuel Ha Hq. unfold handleAction, try_catch, dispatch.
    rewrite Ha; simpl.
    destruct (p_query p) as [c|]; simpl in *; try rewrite Hq; reflexivity.
  - intros fuel Ha Hq. unfold handleAction, try_catch, dispatch.
    rewrite Ha; simpl.
    destruct (p_path p) as [c|]; simpl in *; try rewrite Hq; reflexivity.
  - intros K HB. apply returns_of.
    + apply handleAction_terminates. exact HB.
    + apply handleAction_never_rejects.
  - intros fuel. split.
    + unfold handleAction, dispatch, handleApi, try_catch, bind. simpl.
      rewrite apiRequest_always401_diverges. reflexivity.
    + unfold handleAction, dispatch, handleChapters, getICD11Chapters, chapters_of,
        try_catch, bind. simpl.
      rewrite apiRequest_always401_diverges. reflexivity.
Qed.

Lemma handleAction_never_throws_witness :
  (exists r w',
      handleAction Sample.always404 Sample.client 1
        (mkParams "chapters" None None None None None None) initial_world
      = Ret r w')
  /\ handleAction Sample.always404 Sample.client 1
       (mkParams "lookup" None None None None None None) initial_world
     = Ret (error_result "Error: code required for lookup") initial_world.
Proof.
  split.
  - destruct (handleAction_never_throws Sample.always404 Sample.client
                (mkParams "chapters" None None None None None None)
                initial_world) as [_ [_ [_ [_ [_ [_ [Hret _]]]]]]].
    exact (Hret 0%nat bounded401_always404).
  - apply (proj1 (proj2 (proj2 (proj2
             (handleAction_never_throws Sample.always404 Sample.client
                (mkParams "lookup" None None None None None None)
                initial_world)))) 1%nat (or_introl eq_refl) eq_refl).
Defined.

(** ** C8: a code that cannot be resolved *)

Lemma never_throws_warn_null {A} msg e :
  never_throws (console_warn msg e ;; ret (@None A)).
Proof. intros w e' w'. discriminate. Qed.


Lemma getEntityByUri_string_never_throws E this fuel u :
  never_throws (getEntityByUri E this fuel (Some (JStr u))).
Proof.
  unfold getEntityByUri. apply never_throws_try. intros e.
  apply never_throws_warn_null.
Qed.




(** ** Counting the GET requests of a run *)

Lemma gets_ret {A} (a : A) : run_rel (gets_at_most 0) (ret a).
Proof. intros w w' H. injection H as <-. unfold gets_at_most. lia. Qed.

Lemma gets_throw {A} (e : error) : run_rel (gets_at_most 0) (@throw A e).
Proof. intros w w' H. injection H as <-. unfold gets_at_most. lia. Qed.

Lemma gets_bind (a b : nat) {A B} (m : M A) (k : A -> M B) :
  run_rel (gets_at_most a) m ->
  (forall x, run_rel (gets_at_most b) (k x)) ->
  run_rel (gets_at_most (a + b)) (bind m k).
Proof.
  intros Hm Hk w w'. unfold bind. specialize (Hm w).
  destruct (m w) as [x w1|e w1|]; simpl; intros H; try discriminate.
  - specialize (Hm w1 eq_refl). specialize (Hk x w1 w' H).
    unfold gets_at_most in *. lia.
  - injection H as <-. specialize (Hm w1 eq_refl). unfold gets_at_most in *. lia.
Qed.

Lemma gets_try (a b : nat) {A} (m : M A) (h : error -> M A) :
  run_rel (gets_at_most a) m ->
  (forall e, run_rel (gets_at_most b) (h e)) ->
  run_rel (gets_at_most (a + b)) (try_catch m h).
Proof.
  intros Hm Hh w w'. unfold try_catch. specialize (Hm w).
  destruct (m w) as [x w1|e w1|]; simpl; intros H; try discriminate.
  - injection H as <-. specialize (Hm w1 eq_refl). unfold gets_at_most in *. lia.
  - specialize (Hm w1 eq_refl). specialize (Hh e w1 w' H).
    unfold gets_at_most in *. lia.
Qed.

Lemma gets_warn_null {A} msg e :
  run_rel (gets_at_most 0) (console_warn msg e ;; ret (@None A)).
Proof.
  intros w w' H. unfold bind, console_warn, ret, record in H. simpl in H.
  injection H as <-. unfold gets_at_most, get_calls. simpl. lia.
Qed.

Lemma gets_parseEntity data : run_rel (gets_at_most 0) (parseEntity data).
Proof.
  unfold parseEntity. apply (gets_bind (a:=0%nat) (b:=0%nat)).
  - intros w w'. unfold prop. destruct data; intros H; injection H as <-;
      unfold gets_at_most; lia.
  - intros x. apply gets_ret.
Qed.

Section NoRetry.

Variable E : env.
Variable this : WHOICDClient.
Hypothesis HB : bounded401 E 0.

(** Without 401 answers a request is one GET. *)
Lemma gets_apiRequest fuel endpoint params :
  run_rel (gets_at_most 1) (apiRequest E this fuel endpoint params).
Proof.
  destruct fuel as [|fuel]; intros w w'; [discriminate|].
  simpl. unfold bind at 1.
  destruct (ensureToken_quiet E this w) as [w1 [Hfin Hq]].
  apply quiet_get_calls in Hq.
  destruct (ensureToken E this w) as [t w1'|e w1'|]; simpl in Hfin;
    try discriminate; injection Hfin as ->.
  - unfold bind at 1. unfold fetch_api.
    destruct (api E (trace w1) _) as [e|r] eqn:Hapi.
    + simpl. intros H. injection H as <-. unfold gets_at_most, get_calls in *.
      simpl. lia.
    + destruct (status r =? 401) eqn:H401.
      * apply Z.eqb_eq in H401. pose proof (HB _ _ Hapi H401). lia.
      * destruct (status r =? 429);
          [|destruct (negb (ok (status r))); [|destruct (body r)]];
          simpl; intros H; injection H as <-;
          unfold gets_at_most, get_calls in *; simpl; lia.
  - simpl. intros H. injection H as <-. unfold gets_at_most. lia.
Qed.

Lemma gets_getEntityByUri fuel uri :
  run_rel (gets_at_most 1) (getEntityByUri E this fuel uri).
Proof.
  unfold getEntityByUri.
  destruct uri as [[| | |u| |]|];
    try (intros w w' H; injection H as <-; unfold gets_at_most; lia).
  apply (gets_try (a:=1%nat) (b:=0%nat)).
  - apply (gets_bind (a:=1%nat) (b:=0%nat)); [apply gets_apiRequest|].
    intros data. apply (gets_bind (a:=0%nat) (b:=0%nat)); [apply gets_parseEntity|].
    intros x. apply gets_ret.
  - intros e. apply gets_warn_null.
Qed.

Lemma gets_collect_children fuel uris :
  forall acc,
    run_rel (gets_at_most (List.length uris)) (collect_children E this fuel uris acc).
Proof.
  induction uris as [|uri rest IH]; intros acc.
  - apply gets_ret.
  - apply (gets_bind (a:=1%nat) (b:=List.length rest)); [apply gets_getEntityByUri|].
    intros child. apply IH.
Qed.

Lemma gets_children_of fuel entity :
  run_rel (gets_at_most 20) (children_of E this fuel entity).
Proof.
  unfold children_of.
  destruct entity as [e|];
    [|intros w w' H; injection H as <-; unfold gets_at_most; lia].
  destruct (children e) as [l|];
    [|intros w w' H; injection H as <-; unfold gets_at_most; lia].
  intros w w' H. apply gets_collect_children in H.
  pose proof (firstn_le_length 20 l) as Hl.
  change (Js.slice0 20 l) with (firstn 20 l) in H.
  unfold gets_at_most in *. lia.
Qed.

End NoRetry.

(** ** C6: the children of a code *)

Lemma collect_children_length E this fuel uris :
  forall acc w l w',
    collect_children E this fuel uris acc w = Ret l w' ->
    (List.length l <= List.length acc + List.length uris)%nat.
Proof.
  induction uris as [|uri rest IH]; intros acc w l w' H.
  - injection H as <- _. lia.
  - cbn [collect_children] in H. unfold bind at 1 in H.
    destruct (getEntityByUri E this fuel (Some uri) w) as [[c|] w1|e w1|];
      try discriminate; apply IH in H; try rewrite length_app in H;
      simpl in *; lia.
Qed.

Lemma children_of_length E this fuel entity w l w' :
  children_of E this fuel entity w = Ret l w' -> (List.length l <= 20)%nat.
Proof.
  unfold children_of. destruct entity as [e|]; [|intros H; injection H as <- _; simpl; lia].
  destruct (children e) as [c|]; [|intros H; injection H as <- _; simpl; lia].
  intros H. apply collect_children_length in H.
  change (Js.slice0 20 c) with (firstn 20 c) in H.
  pose proof (firstn_le_length 20 c). cbn [List.length Nat.add] in H. lia.
Qed.

(** The listing is the parent lookup followed by the resolution of its
    children. *)
Lemma children_by_version_unfold E client fuel version code w :
  children_by_version E client fuel version code w
  = bind (lookup_by_version E client fuel version code)
         (children_of E client fuel) w.
Proof.
  unfold children_by_version, lookup_by_version, getICD10Children, getICD11Children.
  destruct (String.eqb version "10"); reflexivity.
Qed.

Lemma bounded401_always200 b : bounded401 (Sample.always200 b) 0.
Proof.
  intros h q r H H401. simpl in H. injection H as <-. discriminate H401.
Qed.

(** The loop of the children listings returns what [resolved] describes. *)
Lemma collect_children_resolved (E : env) (client : WHOICDClient) (fuel : nat)
      (uris : list json) :
  forall acc w l w',
    collect_children E client fuel uris acc w = Ret l w'
    <-> exists added,
        l = (acc ++ added)%list /\ resolved E client fuel uris w added w'.
Proof.
  induction uris as [|uri rest IH]; intros acc w l w'.
  - split.
    + intros H. injection H as <- <-. exists []. rewrite app_nil_r.
      split; [reflexivity | constructor].
    + intros [added [-> Hr]]. inversion Hr; subst. rewrite app_nil_r. reflexivity.
  - cbn [collect_children]. unfold bind at 1.
    destruct (getEntityByUri E client fuel (Some uri) w) as [[c|] w1|e w1|] eqn:Hg.
    + rewrite IH. split.
      * intros [added [-> Hr]]. exists (c :: added). rewrite <- app_assoc.
        split; [reflexivity|]. eapply resolved_hit; eassumption.
      * intros [added [-> Hr]]. inversion Hr; subst;
          match goal with
          | H : getEntityByUri _ _ _ _ _ = _ |- _ => rewrite Hg in H; inversion H; subst
          end.
        eexists. rewrite <- app_assoc. split; [reflexivity | eassumption].
    + rewrite IH. split.
      * intros [added [-> Hr]]. exists added.
        split; [reflexivity|]. eapply resolved_miss; eassumption.
      * intros [added [-> Hr]]. inversion Hr; subst;
          match goal with
          | H : getEntityByUri _ _ _ _ _ = _ |- _ => rewrite Hg in H; inversion H; subst
          end.
        eexists. split; [reflexivity | eassumption].
    + split; [discriminate|].
      intros [added [_ Hr]]. inversion Hr; subst;
        match goal with
        | H : getEntityByUri _ _ _ _ _ = _ |- _ => rewrite Hg in H; discriminate H
        end.
    + split; [discriminate|].
      intros [added [_ Hr]]. inversion Hr; subst;
        match goal with
        | H : getEntityByUri _ _ _ _ _ = _ |- _ => rewrite Hg in H; discriminate H
        end.
Qed.

(** C6 as stated fails in its last clause: the dispatcher does not tell
    the empty-children case from a failed lookup of the parent.  For a
    parent the service does not know and for a parent without children
    the children action gives the same result. *)
Lemma children_of_missing_parent_cex :
  exists r w1 w2 e w3 w4,
    lookup_by_version Sample.always404 Sample.client 1 "10" "BA00" initial_world
    = Ret None w1
    /\ handleAction Sample.always404 Sample.client 1
         (mkParams "children" (Some "BA00") None (Some "10") None None None)
         initial_world = Ret r w2
    /\ lookup_by_version (Sample.always200 Sample.leaf) Sample.client 1 "10" "BA00"
         initial_world = Ret (Some e) w3
    /\ children e = None
    /\ handleAction (Sample.always200 Sample.leaf) Sample.client 1
         (mkParams "children" (Some "BA00") None (Some "10") None None None)
         initial_world = Ret r w4.
Proof.
  do 6 eexists.
  split; [vm_compute; reflexivity|].
  split; [vm_compute; reflexivity|].
  split; [vm_compute; reflexivity|].
  split; [reflexivity|]. vm_compute. reflexivity.
Qed.

(** C6, amended.  The children listing fetches the first 20 declared
    child URIs of the parent in their order, each with
    [getEntityByUri], and returns those that resolve: at most 20
    entities, and, when the service answers no 401, at most 20 GETs
    after the parent was resolved.  A parent that is missing, that
    declares no child list, or that declares an empty one gives the empty
    list, not an exception.  With at most [K] answers 401 in a row the
    listing ends.  For a non-empty code the dispatcher renders the empty
    list as the text "No child codes found for '<code>'. This may be a
    leaf-level code.", not flagged as an error; this text differs from
    the one of a lookup that found nothing, but it is the same for a
    parent whose lookup failed and for a parent without children. *)
Theorem children_listing
        (E : env) (client : WHOICDClient) (fuel : nat)
        (version code : string) (w : world) :
  (forall l w',
      children_by_version E client fuel version code w = Ret l w' ->
      (List.length l <= 20)%nat)
  /\ (forall parent w1 uris,
         lookup_by_version E client fuel version code w = Ret (Some parent) w1 ->
         children parent = Some uris ->
         forall l w',
           children_by_version E client fuel version code w = Ret l w'
           <-> resolved E client fuel (firstn 20 uris) w1 l w')
  /\ (bounded401 E 0 ->
      forall parent w1 w',
        lookup_by_version E client fuel version code w = Ret parent w1 ->
        final (children_by_version E client fuel version code w) = Some w' ->
        (get_calls (trace w') <= get_calls (trace w1) + 20)%nat)
  /\ (forall w1,
         lookup_by_version E client fuel version code w = Ret None w1 ->
         children_by_version E client fuel version code w = Ret [] w1)
  /\ (forall e w1,
         lookup_by_version E client fuel version code w = Ret (Some e) w1 ->
         children e = None \/ children e = Some [] ->
         children_by_version E client fuel version code w = Ret [] w1)
  /\ (forall K,
         bounded401 E K ->
         children_by_version E client (S K) version code w <> Diverge)
  /\ (forall p w',
         p_action p = "children" ->
         p_code p = Some code ->
         code <> "" ->
         or_default (p_version p) "11" = version ->
         children_by_version E client fuel version code w = Ret [] w' ->
         handleAction E client fuel p w
         = Ret {| content :=
                    [mkText ("No child codes found for '" ++ code
                               ++ "'. This may be a leaf-level code.")];
                  isError := None |} w')
  /\ (forall p w',
         p_action p = "children" ->
         p_code p = Some code ->
         code <> "" ->
         or_default (p_version p) "11" = version ->
         lookup_by_version E client fuel version code w = Ret None w'
         \/ (exists e,
                lookup_by_version E client fuel version code w = Ret (Some e) w'
                /\ (children e = None \/ children e = Some [])) ->
         handleAction E client fuel p w
         = Ret {| content :=
                    [mkText ("No child codes found for '" ++ code
                               ++ "'. This may be a leaf-level code.")];
                  isError := None |} w')
  /\ ("No child codes found for '" ++ code ++ "'. This may be a leaf-level code."
      <> "ICD-" ++ version ++ " code '" ++ code ++ "' not found."
           ++ Str.nl ++ Str.nl
           ++ Str.quoted
                "Try searching: {^action^: ^search^, ^query^: ^...^, ^version^: ^"
           ++ version ++ Str.quoted "^}").
Proof.
  assert (Hempty : forall w1,
             lookup_by_version E client fuel version code w = Ret None w1 ->
             children_by_version E client fuel version code w = Ret [] w1).
  { intros w1 Hp. rewrite children_by_version_unfold. unfold bind.
    rewrite Hp. reflexivity. }
  assert (Hleaf : forall e w1,
             lookup_by_version E client fuel version code w = Ret (Some e) w1 ->
             children e = None \/ children e = Some [] ->
             children_by_version E client fuel version code w = Ret [] w1).
  { intros e w1 Hp Hc. rewrite children_by_version_unfold. unfold bind.
    rewrite Hp. unfold children_of. destruct Hc as [-> | ->]; reflexivity. }
  assert (Hshow : forall p w',
             p_action p = "children" ->
             p_code p = Some code ->
             code <> "" ->
             or_default (p_version p) "11" = version ->
             children_by_version E client fuel version code w = Ret [] w' ->
             handleAction E client fuel p w
             = Ret {| content :=
                        [mkText ("No child codes found for '" ++ code
                                   ++ "'. This may be a leaf-level code.")];
                      isError := None |} w').
  { intros p w' Ha Hc Hne Hv Hnil. apply String.eqb_neq in Hne.
    unfold handleAction, try_catch, dispatch, handleChildren.
    rewrite Ha, Hc, Hv. simpl. rewrite Hne. simpl.
    unfold bind. unfold children_by_version in Hnil.
    destruct (String.eqb version "10"); rewrite Hnil; reflexivity. }
  split; [|split; [|split; [|split; [|split; [|split; [|split; [|split]]]]]]].
  - intros l w'. rewrite children_by_version_unfold. unfold bind.
    destruct (lookup_by_version E client fuel version code w) as [p w1|e w1|];
      try discriminate.
    apply children_of_length.
  - intros parent w1 uris Hp Hc l w'. rewrite children_by_version_unfold.
    unfold bind. rewrite Hp. unfold children_of. rewrite Hc.
    change (Js.slice0 20 uris) with (firstn 20 uris).
    rewrite collect_children_resolved. split.
    + intros [added [-> Hr]]. exact Hr.
    + intros Hr. exists l. split; [reflexivity | exact Hr].
  - intros HB parent w1 w' Hp. rewrite children_by_version_unfold. unfold bind.
    rewrite Hp. apply gets_children_of. exact HB.
  - exact Hempty.
  - exact Hleaf.
  - intros K HB. unfold children_by_version, getICD10Children, getICD11Children.
    destruct (String.eqb version "10");
      apply terminates_bind; intros;
      first [ apply getICD10Code_terminates
            | apply getICD11Code_terminates
            | apply children_of_terminates ]; exact HB.
  - exact Hshow.
  - intros p w' Ha Hc Hne Hv [Hnone | [e [Hsome Hch]]].
    + apply Hshow; auto.
    + apply Hshow; auto. eapply Hleaf; eassumption.
  - simpl. discriminate.
Qed.

Lemma children_listing_witness :
  (exists parent w1 l w',
      lookup_by_version Scenario.family Sample.client 1 "10" "A00" initial_world
      = Ret (Some parent) w1
      /\ children parent
         = Some [JStr (Scenario.child_uri "A00.0"); JStr (Scenario.child_uri "A00.1")]
      /\ resolved Scenario.family Sample.client 1
           [JStr (Scenario.child_uri "A00.0"); JStr (Scenario.child_uri "A00.1")]
           w1 l w'
      /\ map title l = ["Classical cholera"])
  /\ (exists parent w1,
         lookup_by_version (Sample.always200 Sample.leaf) Sample.client 1 "10" "BA00"
           initial_world = Ret parent w1
         /\ forall w',
             final (children_by_version (Sample.always200 Sample.leaf) Sample.client 1
                      "10" "BA00" initial_world) = Some w' ->
             (get_calls (trace w') <= get_calls (trace w1) + 20)%nat)
  /\ exists w',
      handleAction (Sample.always200 Sample.leaf) Sample.client 1
        (mkParams "children" (Some "BA00") None (Some "10") None None None)
        initial_world
      = Ret {| content :=
                 [mkText "No child codes found for 'BA00'. This may be a leaf-level code."];
               isError := None |} w'.
Proof.
  split; [|split].
  - assert (Hp : exists parent w1,
               lookup_by_version Scenario.family Sample.client 1 "10" "A00"
                 initial_world = Ret (Some parent) w1
               /\ children parent
                  = Some [JStr (Scenario.child_uri "A00.0");
                          JStr (Scenario.child_uri "A00.1")])
      by (eexists; eexists; split; [vm_compute; reflexivity | reflexivity]).
    destruct Hp as [parent [w1 [Hp Hc]]].
    assert (Hl : exists l w',
               children_by_version Scenario.family Sample.client 1 "10" "A00"
                 initial_world = Ret l w'
               /\ map title l = ["Classical cholera"])
      by (eexists; eexists; split; [vm_compute; reflexivity | reflexivity]).
    destruct Hl as [l [w' [Hl Ht]]].
    exists parent, w1, l, w'. split; [exact Hp|]. split; [exact Hc|].
    split; [|exact Ht].
    apply (proj1 (proj1 (proj2 (children_listing Scenario.family Sample.client 1
                                  "10" "A00" initial_world))
                        parent w1 _ Hp Hc l w') Hl).
  - pose proof (children_listing (Sample.always200 Sample.leaf) Sample.client 1
                  "10" "BA00" initial_world)
      as [_ [_ [Hgets _]]].
    eexists. eexists. split; [vm_compute; reflexivity|].
    intros w'. eapply (Hgets (@bounded401_always200 Sample.leaf)).
    vm_compute. reflexivity.
  - pose proof (children_listing (Sample.always200 Sample.leaf) Sample.client 1
                  "10" "BA00" initial_world)
      as [_ [_ [_ [_ [Hleaf [_ [Hd _]]]]]]].
    eexists.
    apply (Hd (mkParams "children" (Some "BA00") None (Some "10") None None None));
      [reflexivity | reflexivity | discriminate | reflexivity |].
    eapply Hleaf; [vm_compute; reflexivity | left; reflexivity].
Defined.

(** * Further properties of the client *)

(** ** The token cache *)

(** What a run of [ensureToken] does to the world: a returned token is
    the cached one and is not [null]; a failure leaves the cache as it
    was; either way at most one authentication call was made and no GET. *)
Lemma ensureToken_effect (E : env) (this : WHOICDClient) (w : world) :
  match ensureToken E this w with
  | Ret t w1 =>
      t = accessToken w1 /\ (exists s, t = Some s) /\ quiet w w1
      /\ (auth_calls (trace w1) <= auth_calls (trace w) + 1)%nat
  | Throw e w1 =>
      accessToken w1 = accessToken w /\ tokenExpiry w1 = tokenExpiry w
      /\ quiet w w1
      /\ auth_calls (trace w1) = S (auth_calls (trace w))
      /\ (token_endpoint E (history_before_auth E w) (credentials this) = Rejected e
          \/ exists r,
              token_endpoint E (history_before_auth E w) (credentials this)
              = Responded r
              /\ ((ok (t_status r) = false
                   /\ e = Error ("Authentication failed: " ++ Str.of_Z (t_status r)
                                   ++ " - " ++ t_text r))
                  \/ (ok (t_status r) = true /\ t_json r = None
                      /\ e = SyntaxError "Unexpected token in JSON")))
  | Diverge => False
  end.
Proof.
  unfold ensureToken, authenticate, bind, get_accessToken, get_tokenExpiry,
    set_accessToken, set_tokenExpiry, Date_now, fetch_token, json_of, ret, throw,
    history_before_auth.
  destruct (accessToken w) as [s|] eqn:Htok; simpl;
    [destruct (String.eqb s ""); simpl;
     [|destruct (clock E (trace w) >=? tokenExpiry w); simpl]|];
    try (destruct (token_endpoint E _ _) as [e|r] eqn:Hr; simpl;
         [|destruct (ok (t_status r)) eqn:Hok; simpl;
           [destruct (t_json r) eqn:Hj; simpl|]]);
    repeat split; eauto 10;
    try quiet_by_events; try (unfold auth_calls; simpl; lia).
Qed.



(** ** Requests *)

(** X2.  An answer that is neither 401 nor a success makes [apiRequest]
    reject after that one GET, without a retry and with the cache left as
    [ensureToken] set it: "Rate limit exceeded" for 429, and "API request
    failed" with the status and the body text otherwise.  A rejected
    fetch is passed on in the same way. *)
Theorem apiRequest_error_status
        (E : env) (this : WHOICDClient) (fuel : nat) (endpoint : string)
        (params : option (list (string * string)))
        (w : world) (token : option string) (w1 : world) :
  ensureToken E this w = Ret token w1 ->
  (forall r,
      api E (trace w1) (get_request this endpoint params token) = Responded r ->
      status r <> 401 ->
      ok (status r) = false ->
      apiRequest E this (S fuel) endpoint params w
      = Throw (if status r =? 429
               then Error "Rate limit exceeded. Please try again later."
               else Error ("API request failed: " ++ Str.of_Z (status r)
                             ++ " - " ++ text r))
              (record (EvGet (get_request this endpoint params token)
                             (Responded r)) w1))
  /\ (forall e,
         api E (trace w1) (get_request this endpoint params token) = Rejected e ->
         apiRequest E this (S fuel) endpoint params w
         = Throw e (record (EvGet (get_request this endpoint params token)
                                  (Rejected e)) w1)).
Proof.
  intros Htok. split.
  - intros r Hapi H401 Hok. apply Z.eqb_neq in H401.
    cbn [apiRequest]. unfold bind at 1. rewrite Htok.
    unfold bind at 1. unfold fetch_api. rewrite Hapi.
    rewrite H401, Hok. destruct (status r =? 429); reflexivity.
  - intros e Hapi. cbn [apiRequest]. unfold bind at 1. rewrite Htok.
    unfold bind at 1. unfold fetch_api. rewrite Hapi. reflexivity.
Qed.

Lemma apiRequest_error_status_witness :
  apiRequest Scenario.limited Sample.client 1 "/icd/release/11/2024-01/mms" None
    (mkWorld (Some "token-0") 5000 [])
  = Throw (Error "Rate limit exceeded. Please try again later.")
          (mkWorld (Some "token-0") 5000
             [EvGet (get_request Sample.client "/icd/release/11/2024-01/mms" None
                       (Some "token-0"))
                    (Sample.answer 429 None);
              EvNow 0]).
Proof.
  apply (proj1 (@apiRequest_error_status Scenario.limited Sample.client 0
                  "/icd/release/11/2024-01/mms" None
                  (mkWorld (Some "token-0") 5000 []) (Some "token-0")
                  (mkWorld (Some "token-0") 5000 [EvNow 0]) eq_refl)
               (mkResponse 429 "" None));
    [reflexivity | discriminate | reflexivity].
Defined.



(** X4.  A call of [apiRequest] that ends has made at most one
    authentication call per GET it issued, and one more. *)
Theorem apiRequest_auth_per_get
        (E : env) (this : WHOICDClient) (fuel : nat) (endpoint : string)
        (params : option (list (string * string))) :
  forall (w w' : world),
    final (apiRequest E this fuel endpoint params w) = Some w' ->
    (auth_calls (trace w') + get_calls (trace w)
     <= auth_calls (trace w) + get_calls (trace w') + 1)%nat.
Proof.
  induction fuel as [|fuel IH]; intros w w' H; [discriminate|].
  cbn [apiRequest] in H. unfold bind at 1 in H.
  pose proof (ensureToken_effect E this w) as He.
  destruct (ensureToken E this w) as [t w1|e w1|]; [| |contradiction].
  - destruct He as [_ [_ [Hq Hn]]]. apply quiet_get_calls in Hq.
    unfold bind at 1 in H. unfold fetch_api in H.
    destruct (api E (trace w1) _) as [e|r] eqn:Hapi.
    + simpl in H. injection H as <-. unfold auth_calls, get_calls in *.
      simpl. lia.
    + destruct (status r =? 401).
      * unfold bind at 1, set_accessToken in H. apply IH in H.
        unfold auth_calls, get_calls in *. simpl in H. lia.
      * destruct (status r =? 429);
          [|destruct (negb (ok (status r))); [|destruct (body r)]];
          simpl in H; injection H as <-;
          unfold auth_calls, get_calls in *; simpl; lia.
  - destruct He as [_ [_ [Hq [Hn _]]]]. apply quiet_get_calls in Hq.
    simpl in H. injection H as <-. lia.
Qed.

Lemma apiRequest_auth_per_get_witness :
  exists w',
    final (apiRequest Sample.twice401 Sample.client 3
             "/icd/release/11/2024-01/mms" None initial_world) = Some w'
    /\ (auth_calls (trace w') + 0 <= 0 + get_calls (trace w') + 1)%nat.
Proof.
  eexists. split; [vm_compute; reflexivity|].
  apply (@apiRequest_auth_per_get Sample.twice401 Sample.client 3
           "/icd/release/11/2024-01/mms" None initial_world).
  vm_compute. reflexivity.
Defined.

(** ** Entities by URI *)

Lemma prefix_app (p s : string) : String.prefix p (p ++ s) = true.
Proof.
  induction p as [|a p IH]; simpl; [destruct s; reflexivity|].
  destruct (ascii_dec a a); [exact IH | congruence].
Qed.

Lemma substring_whole (s : string) : String.substring 0 (String.length s) s = s.
Proof. induction s as [|a s IH]; simpl; [reflexivity | rewrite IH; reflexivity]. Qed.

Lemma substring_after (p s : string) :
  String.substring (String.length p)
                   (String.length (p ++ s) - String.length p) (p ++ s) = s.
Proof.
  induction p as [|a p IH]; simpl.
  - rewrite Nat.sub_0_r. apply substring_whole.
  - exact IH.
Qed.

(** Replacing a pattern the string starts with. *)
Lemma replace_first_prefix (pat rep s : string) :
  Str.replace_first pat rep (pat ++ s) = (rep ++ s)%string.
Proof.
  unfold Str.replace_first.
  destruct (String.length (pat ++ s)); simpl;
    rewrite prefix_app, substring_after; reflexivity.
Qed.

(** The endpoint [getEntityByUri] computes for a URI on the origin. *)
Lemma origin_path (scheme path : string) :
  scheme = "http://" \/ scheme = "https://" ->
  Str.replace_first API_BASE_URL ""
    (if Str.startsWith (scheme ++ "id.who.int" ++ path) "http://"
     then Str.replace_first "http://" "https://" (scheme ++ "id.who.int" ++ path)
     else scheme ++ "id.who.int" ++ path) = path.
Proof.
  intros [-> | ->].
  - replace (Str.startsWith ("http://" ++ "id.who.int" ++ path) "http://")
      with true by (symmetry; apply (prefix_app "http://")).
    rewrite (replace_first_prefix "http://" "https://").
    apply (replace_first_prefix API_BASE_URL "" path).
  - replace (Str.startsWith ("https://" ++ "id.who.int" ++ path) "http://")
      with false by reflexivity.
    apply (replace_first_prefix API_BASE_URL "" path).
Qed.

(** X5.  The URI of an entity on the service's origin, with either
    scheme, is fetched at its path: when the request for the path
    returns a record, [getEntityByUri] returns its normalization, and
    when the request fails it returns [null] after a warning that names
    the URI as it was given. *)
Theorem getEntityByUri_strips_origin
        (E : env) (this : WHOICDClient) (fuel : nat)
        (scheme path : string) (w : world) :
  scheme = "http://" \/ scheme = "https://" ->
  let uri := scheme ++ "id.who.int" ++ path in
  (forall data w1 entity,
      apiRequest E this fuel path None w = Ret data w1 ->
      parseEntity data w1 = Ret entity w1 ->
      getEntityByUri E this fuel (Some (JStr uri)) w = Ret (Some entity) w1)
  /\ (forall e w1,
         apiRequest E this fuel path None w = Throw e w1 ->
         getEntityByUri E this fuel (Some (JStr uri)) w
         = Ret None (record (EvWarn ("Failed to get entity by URI " ++ uri ++ ":") e)
                            w1)).
Proof.
  intros Hs uri.
  pose proof (origin_path path Hs) as Hend. fold uri in Hend.
  unfold getEntityByUri. rewrite Hend. split.
  - intros data w1 entity Hreq Hparse.
    unfold try_catch, bind. rewrite Hreq, Hparse. reflexivity.
  - intros e w1 Hreq. unfold try_catch, bind at 1. rewrite Hreq. reflexivity.
Qed.

Lemma getEntityByUri_strips_origin_witness :
  exists entity w1,
    getEntityByUri Scenario.release11 Sample.client 1
      (Some (JStr (Scenario.chapter_uri "2"))) initial_world
    = Ret (Some entity) w1
    /\ title entity = "Neoplasms".
Proof.
  eexists. eexists. split.
  - apply (proj1 (@getEntityByUri_strips_origin Scenario.release11 Sample.client 1
                    "http://" "/icd/release/11/2024-01/mms/2" initial_world
                    (or_introl eq_refl)) Scenario.chapter2);
      vm_compute; reflexivity.
  - reflexivity.
Defined.

(** ** The entity normalizer *)




(** ** Chapters *)

Lemma subseq_refl_nil {A} (l : list A) : subseq [] l.
Proof. induction l; constructor; assumption. Qed.

Lemma collect_chapters_step (E : env) (this : WHOICDClient) (fuel : nat)
      (uri : json) (rest : list json) (acc : list ICDChapter) (w : world) :
  collect_chapters E this fuel (uri :: rest) acc w
  = match getEntityByUri E this fuel (Some uri) w with
    | Ret (Some d) w1 =>
        collect_chapters E this fuel rest
          (acc ++ [mkChapter (code d) (title d) uri])%list w1
    | Ret None w1 => collect_chapters E this fuel rest acc w1
    | Throw _ w1 => collect_chapters E this fuel rest acc w1
    | Diverge => Diverge
    end.
Proof.
  cbn [collect_chapters]. unfold bind, try_catch.
  destruct (getEntityByUri E this fuel (Some uri) w) as [[d|] w1|e w1|];
    reflexivity.
Qed.

Lemma collect_chapters_spec (E : env) (this : WHOICDClient) (fuel : nat)
      (uris : list json) :
  forall acc w,
    (forall e w', collect_chapters E this fuel uris acc w <> Throw e w')
    /\ (forall l w',
           collect_chapters E this fuel uris acc w = Ret l w' ->
           exists added,
             l = (acc ++ added)%list /\ subseq (map ch_uri added) uris).
Proof.
  induction uris as [|uri rest IH]; intros acc w.
  - split; [discriminate|]. intros l w' H. injection H as <- _.
    exists []. rewrite app_nil_r. split; [reflexivity | constructor].
  - rewrite collect_chapters_step.
    destruct (getEntityByUri E this fuel (Some uri) w) as [[d|] w1|e w1|].
    + destruct (IH (acc ++ [mkChapter (code d) (title d) uri])%list w1) as [Hn Hr].
      split; [exact Hn|]. intros l w' H. apply Hr in H as [added [-> Hs]].
      exists (mkChapter (code d) (title d) uri :: added).
      rewrite <- app_assoc. split; [reflexivity|]. simpl. apply subseq_take. exact Hs.
    + destruct (IH acc w1) as [Hn Hr].
      split; [exact Hn|]. intros l w' H. apply Hr in H as [added [-> Hs]].
      exists added. split; [reflexivity | apply subseq_skip; exact Hs].
    + destruct (IH acc w1) as [Hn Hr].
      split; [exact Hn|]. intros l w' H. apply Hr in H as [added [-> Hs]].
      exists added. split; [reflexivity | apply subseq_skip; exact Hs].
    + split; discriminate.
Qed.

Lemma chapters_of_spec (E : env) (this : WHOICDClient) (fuel : nat)
      (endpoint : string) (w : world) (props : list (string * json))
      (uris : list json) (w1 : world) :
  apiRequest E this fuel endpoint None w = Ret (JObj props) w1 ->
  Js.lookup "child" props = Some (JArr uris) ->
  (forall e w', chapters_of E this fuel endpoint w <> Throw e w')
  /\ (forall l w',
         chapters_of E this fuel endpoint w = Ret l w' ->
         subseq (map ch_uri l) uris).
Proof.
  intros Hreq Hchild.
  assert (Heq : chapters_of E this fuel endpoint w
                = collect_chapters E this fuel uris [] w1).
  { unfold chapters_of, bind at 1. rewrite Hreq.
    unfold bind at 1, prop, ret at 1.
    change (Js.get (JObj props) "child") with (Js.lookup "child" props).
    rewrite Hchild. reflexivity. }
  rewrite Heq.
  destruct (collect_chapters_spec E this fuel uris [] w1) as [Hn Hr].
  split; [exact Hn|]. intros l w' H. apply Hr in H as [added [-> Hs]]. exact Hs.
Qed.

(** X7.  Once the root of a release was fetched and declares a list of
    children, the chapter listings of both versions never reject,
    whatever the fetches of the single chapters do: a chapter that cannot
    be fetched is left out, and the chapters returned carry declared
    URIs, in the declared order. *)
Theorem chapter_listing_skips_failures
        (E : env) (this : WHOICDClient) (fuel : nat) (w : world)
        (props : list (string * json)) (uris : list json) (w1 : world) :
  Js.lookup "child" props = Some (JArr uris) ->
  (apiRequest E this fuel ("/icd/release/10/" ++ icd10Release this) None w
   = Ret (JObj props) w1 ->
   (forall e w', getICD10Chapters E this fuel w <> Throw e w')
   /\ (forall l w',
          getICD10Chapters E this fuel w = Ret l w' ->
          subseq (map ch_uri l) uris))
  /\ (apiRequest E this fuel ("/icd/release/11/" ++ icd11Release this ++ "/mms")
        None w = Ret (JObj props) w1 ->
      (forall e w', getICD11Chapters E this fuel w <> Throw e w')
      /\ (forall l w',
             getICD11Chapters E this fuel w = Ret l w' ->
             subseq (map ch_uri l) uris)).
Proof.
  intros Hchild. split; intros Hreq.
  - unfold getICD10Chapters. eapply chapters_of_spec; eassumption.
  - unfold getICD11Chapters. eapply chapters_of_spec; eassumption.
Qed.

Lemma chapter_listing_skips_failures_witness :
  exists w',
    getICD11Chapters Scenario.release11 Sample.client 1 initial_world
    = Ret [mkChapter (JStr "02") "Neoplasms" (JStr (Scenario.chapter_uri "2"))] w'
    /\ subseq [JStr (Scenario.chapter_uri "2")]
              [JStr (Scenario.chapter_uri "1"); JStr (Scenario.chapter_uri "2")].
Proof.
  eexists. split; [vm_compute; reflexivity|].
  refine (proj2 (proj2 (@chapter_listing_skips_failures Scenario.release11
                          Sample.client 1 initial_world
                          [("child", JArr [JStr (Scenario.chapter_uri "1");
                                           JStr (Scenario.chapter_uri "2")])]
                          _ _ eq_refl) _)
                [mkChapter (JStr "02") "Neoplasms" (JStr (Scenario.chapter_uri "2"))]
                _ _);
    vm_compute; reflexivity.
Defined.

(** ** Children *)

Lemma collect_children_strings (E : env) (this : WHOICDClient) (fuel : nat)
      (uris : list json) :
  all_strings uris = true ->
  forall acc, never_throws (collect_children E this fuel uris acc).
Proof.
  induction uris as [|uri rest IH]; intros Hs acc w e w'; [discriminate|].
  simpl in Hs. apply andb_true_iff in Hs as [Hu Hrest].
  cbn [collect_children]. unfold bind at 1.
  destruct uri; try discriminate Hu.
  pose proof (@getEntityByUri_string_never_throws E this fuel s w) as Hn.
  destruct (getEntityByUri E this fuel (Some (JStr s)) w) as [c w1|e1 w1|];
    [apply IH; exact Hrest | exfalso; eapply Hn; reflexivity | discriminate].
Qed.

(** X8.  The children listing rejects only when the parent lookup
    itself rejects or when one of the first 20 declared children is not
    a string: a child whose fetch fails is left out.  A first declared
    child that is not a string does make the listing reject, with a
    [TypeError] and before any request for a child. *)
Theorem children_listing_rejects_only_non_string
        (E : env) (client : WHOICDClient) (fuel : nat)
        (version code : string) (w : world) :
  (forall e w',
      children_by_version E client fuel version code w = Throw e w' ->
      lookup_by_version E client fuel version code w = Throw e w'
      \/ exists parent w1 l,
          lookup_by_version E client fuel version code w = Ret (Some parent) w1
          /\ children parent = Some l
          /\ all_strings (firstn 20 l) = false)
  /\ (forall parent w1 j rest,
         lookup_by_version E client fuel version code w = Ret (Some parent) w1 ->
         children parent = Some (j :: rest) ->
         Js.is_string (Some j) = false ->
         exists e,
           children_by_version E client fuel version code w = Throw e w1
           /\ err_class e = "TypeError").
Proof.
  split.
  - intros e w'. rewrite children_by_version_unfold. unfold bind.
    destruct (lookup_by_version E client fuel version code w)
      as [[parent|] w1|e1 w1|]; try discriminate.
    + intros H. right. unfold children_of in H.
      destruct (children parent) as [l|] eqn:Hl; [|discriminate].
      exists parent, w1, l. repeat split; auto.
      change (Js.slice0 20 l) with (firstn 20 l) in H.
      destruct (all_strings (firstn 20 l)) eqn:Hs; [|reflexivity].
      exfalso. revert H. apply collect_children_strings. exact Hs.
    + intros H. left. injection H as -> ->. reflexivity.
  - intros parent w1 j rest Hp Hc Hj. rewrite children_by_version_unfold.
    unfold bind. rewrite Hp. unfold children_of. rewrite Hc.
    change (Js.slice0 20 (j :: rest)) with (j :: firstn 19 rest).
    cbn [collect_children]. unfold bind, getEntityByUri, throw.
    destruct j; try discriminate Hj; eexists; split; reflexivity.
Qed.

Lemma children_listing_rejects_only_non_string_witness :
  exists e w1,
    children_by_version (Sample.always200 Scenario.odd_parent) Sample.client 1
      "10" "X00" initial_world = Throw e w1
    /\ err_class e = "TypeError".
Proof.
  assert (Hp : exists parent w1,
             lookup_by_version (Sample.always200 Scenario.odd_parent)
               Sample.client 1 "10" "X00" initial_world = Ret (Some parent) w1
             /\ children parent = Some [JNum 5])
    by (eexists; eexists; split; [vm_compute; reflexivity | reflexivity]).
  destruct Hp as [parent [w1 [Hp Hc]]].
  destruct (proj2 (children_listing_rejects_only_non_string
                     (Sample.always200 Scenario.odd_parent) Sample.client 1
                     "10" "X00" initial_world)
                  parent w1 (JNum 5) [] Hp Hc eq_refl) as [e He].
  exists e, w1. exact He.
Defined.

(** ** Search *)

Lemma collect_results_length (items : list json) :
  forall acc w rs w',
    collect_results items acc w = Ret rs w' ->
    List.length rs = (List.length acc + List.length items)%nat.
Proof.
  induction items as [|item rest IH]; intros acc w rs w' H.
  - injection H as <- _. simpl. lia.
  - cbn [collect_results] in H. unfold bind at 1 in H.
    destruct (search_result_of item w) as [r w1|e w1|]; try discriminate.
    apply IH in H. rewrite length_app in H. simpl in *. lia.
Qed.

Lemma slice0_length {A} (n : Z) (l : list A) :
  0 <= n -> Z.of_nat (List.length (Js.slice0 n l)) <= n.
Proof.
  intros Hn. unfold Js.slice0.
  replace (0 <=? n) with true by (symmetry; apply Z.leb_le; exact Hn).
  pose proof (firstn_le_length (Z.to_nat n) l). lia.
Qed.

(** X9.  Whatever the service answers to a search, a list that
    [searchICD11] returns has at most as many results as the maximum
    asked for, when that is not negative, and at most 10 when no maximum
    is given. *)
Theorem searchICD11_never_exceeds_cap
        (E : env) (this : WHOICDClient) (fuel : nat) (query : string)
        (maxResults : option Z) (chapterFilter : option string)
        (w : world) (rs : list ICDSearchResult) (w' : world) :
  searchICD11 E this fuel query maxResults chapterFilter w = Ret rs w' ->
  0 <= match maxResults with Some n => n | None => 10 end ->
  Z.of_nat (List.length rs) <= match maxResults with Some n => n | None => 10 end.
Proof.
  intros H Hcap. unfold searchICD11 in H.
  set (cap := match maxResults with Some n => n | None => 10 end) in *.
  unfold bind at 1 in H.
  destruct (apiRequest E this fuel _ _ w) as [data w1|e w1|]; try discriminate.
  unfold bind at 1 in H.
  destruct (prop data "destinationEntities" w1) as [dest w2|e w2|];
    try discriminate.
  unfold bind at 1 in H.
  destruct (slice_items cap _ w2) as [items w3|e w3|] eqn:Hs; try discriminate.
  apply collect_results_length in H. simpl in H. rewrite H.
  unfold slice_items in Hs.
  destruct (match Js.or dest (Some (JArr [])) with Some e => e | None => JArr [] end);
    try discriminate; injection Hs as <- _; apply slice0_length; exact Hcap.
Qed.

Lemma searchICD11_never_exceeds_cap_witness :
  exists rs w',
    searchICD11 Sample.three_hits Sample.client 1 "pneumonia" (Some 1) None
      initial_world = Ret rs w'
    /\ Z.of_nat (List.length rs) <= 1.
Proof.
  eexists. eexists. split; [vm_compute; reflexivity|].
  eapply (@searchICD11_never_exceeds_cap Sample.three_hits Sample.client 1
            "pneumonia" (Some 1) None initial_world);
    [vm_compute; reflexivity | lia].
Defined.

(** * Further properties of the handlers *)

(** ** The text of an entity *)

Lemma string_app_assoc (a b c : string) : ((a ++ b) ++ c = a ++ (b ++ c))%string.
Proof. induction a as [|x a IH]; simpl; [reflexivity | rewrite IH; reflexivity]. Qed.

Lemma join_snoc (sep : string) (l : list string) (x : string) :
  l <> [] ->
  Str.join sep (l ++ [x]) = (Str.join sep l ++ sep ++ x)%string.
Proof.
  induction l as [|a [|b l'] IH]; intros Hne; [congruence | reflexivity |].
  change (Str.join sep ((a :: b :: l') ++ [x]))
    with (a ++ sep ++ Str.join sep ((b :: l') ++ [x]))%string.
  rewrite IH by discriminate.
  change (Str.join sep (a :: b :: l')) with (a ++ sep ++ Str.join sep (b :: l'))%string.
  rewrite !string_app_assoc. reflexivity.
Qed.

(** A joined list between its first and its last line. *)
Lemma join_framed (sep h foot : string) (mid : list string) :
  exists body,
    Str.join sep (h :: mid ++ [foot]) = (h ++ body ++ sep ++ foot)%string.
Proof.
  destruct mid as [|m mid].
  - exists ""%string. reflexivity.
  - exists (sep ++ Str.join sep (m :: mid))%string.
    change (h :: (m :: mid) ++ [foot]) with (h :: m :: (mid ++ [foot])).
    change (Str.join sep (h :: m :: (mid ++ [foot])))
      with (h ++ sep ++ Str.join sep ((m :: mid) ++ [foot]))%string.
    rewrite join_snoc by discriminate. rewrite !string_app_assoc. reflexivity.
Qed.

(** X10.  The text of an entity always begins with the code in bold
    followed by the title, and ends, after an empty line, with the ICD
    version between underscores. *)
Theorem formatEntity_header_and_footer (entity : ICDEntity) (version : string) :
  exists body,
    formatEntity entity version
    = ("**" ++ Js.string_of_json (code entity) ++ "**: " ++ title entity)
        ++ body ++ Str.nl ++ Str.nl ++ "_ICD-" ++ version ++ "_".
Proof.
  unfold formatEntity. cbv zeta.
  match goal with
  | |- context [List.concat [[?h]; ?a; ?b; ?c; ?d; ?e; ?f; [?foot]]] =>
      replace (List.concat [[h]; a; b; c; d; e; f; [foot]])
        with (h :: (a ++ b ++ c ++ d ++ e ++ f) ++ [foot])%list
        by (cbn [List.concat app]; rewrite ?app_nil_r, <- ?app_assoc; reflexivity);
      destruct (join_framed Str.nl h foot (a ++ b ++ c ++ d ++ e ++ f)%list)
        as [body Hb];
      exists body; rewrite Hb
  end.
  reflexivity.
Qed.

Lemma bullets_same (heading : string) (a b : option (list json)) :
  same_shown a b -> bullets heading a = bullets heading b.
Proof.
  destruct a as [l1|], b as [l2|]; unfold same_shown; intros H;
    try contradiction; [|reflexivity].
  destruct H as [Hf Hl]. unfold bullets.
  change (Js.slice0 10 l1) with (firstn 10 l1).
  change (Js.slice0 10 l2) with (firstn 10 l2).
  rewrite Hf, Hl. reflexivity.
Qed.

(** X11.  The text of an entity shows nothing of its parent, children,
    URI and class kind, and of its inclusion and exclusion lists only the
    first ten items and the number of items: two entities that agree on
    the rest get the same text. *)
Theorem formatEntity_shows_first_ten (e1 e2 : ICDEntity) (version : string) :
  code e1 = code e2 ->
  title e1 = title e2 ->
  definition e1 = definition e2 ->
  longDefinition e1 = longDefinition e2 ->
  codingNote e1 = codingNote e2 ->
  browserUrl e1 = browserUrl e2 ->
  same_shown (inclusions e1) (inclusions e2) ->
  same_shown (exclusions e1) (exclusions e2) ->
  formatEntity e1 version = formatEntity e2 version.
Proof.
  intros Hc Ht Hd Hl Hn Hb Hi Hx. unfold formatEntity.
  rewrite Hc, Ht, Hd, Hl, Hn, Hb.
  rewrite (bullets_same "**Includes:**" _ _ Hi).
  rewrite (bullets_same "**Excludes:**" _ _ Hx).
  reflexivity.
Qed.

Lemma formatEntity_shows_first_ten_witness :
  formatEntity
    (mkEntity (JStr "BA00") "Cholera" None None
              (Some (Scenario.ten ++ [JStr "a"])%list) None
              None (Some (JStr "p")) (Some [JStr "c"]) None None None) "11"
  = formatEntity
      (mkEntity (JStr "BA00") "Cholera" None None
                (Some (Scenario.ten ++ [JStr "b"])%list) None
                None None None (Some (JStr "u")) (Some (JStr "k")) None) "11".
Proof.
  apply formatEntity_shows_first_ten; repeat split; reflexivity.
Defined.

(** X12.  A long definition that is the same text as the definition is
    not shown a second time: the text is the one of the entity without
    a long definition. *)
Theorem formatEntity_repeated_details (e : ICDEntity) (version : string) :
  longDefinition e = definition e ->
  formatEntity e version
  = formatEntity
      (mkEntity (code e) (title e) (definition e) None (inclusions e)
                (exclusions e) (codingNote e) (parent e) (children e) (uri e)
                (classKind e) (browserUrl e)) version.
Proof.
  intros H. unfold formatEntity. simpl. rewrite H.
  destruct (definition e) as [d|]; [|reflexivity].
  simpl. rewrite String.eqb_refl, andb_false_r. reflexivity.
Qed.

Lemma formatEntity_repeated_details_witness :
  formatEntity
    (mkEntity (JStr "BA00") "Cholera" (Some "An infection.") (Some "An infection.")
              None None None None None None None None) "11"
  = formatEntity
      (mkEntity (JStr "BA00") "Cholera" (Some "An infection.") None
                None None None None None None None None) "11".
Proof.
  apply (formatEntity_repeated_details
           (mkEntity (JStr "BA00") "Cholera" (Some "An infection.")
                     (Some "An infection.") None None None None None None None None)
           "11" eq_refl).
Defined.

(** ** Search results as text *)




(** ** The raw passthrough *)

(** X14.  For a path that starts with a slash, the api action gives the
    JSON the request returned, printed with an indentation of two and
    not flagged as an error; a request that fails gives the text "API
    Error: " followed by the message, flagged as an error.  The failure
    is caught in [handleApi] and does not reach the catch of
    [handleAction], whose text would start with "Error: ". *)
Theorem handleApi_reports_failures
        (E : env) (client : WHOICDClient) (fuel : nat)
        (p : ICDParamsType) (path : string) (w : world) :
  p_action p = "api" ->
  p_path p = Some path ->
  Str.startsWith path "/" = true ->
  (forall e w', handleApi E client fuel path w <> Throw e w')
  /\ (forall j w',
         apiRequest E client fuel path None w = Ret j w' ->
         handleAction E client fuel p w
         = Ret {| content := [mkText (Js.stringify2 j)]; isError := None |} w')
  /\ (forall e w',
         apiRequest E client fuel path None w = Throw e w' ->
         handleAction E client fuel p w
         = Ret {| content := [mkText ("API Error: " ++ message e)];
                  isError := Some true |} w').
Proof.
  intros Ha Hp Hs.
  assert (Hne : falsy (Some path) = false).
  { destruct path; [discriminate Hs | reflexivity]. }
  split; [|split].
  - intros e w'. unfold handleApi. rewrite Hs. simpl.
    apply never_throws_try. intros e0. apply never_throws_ret.
  - intros j w' H. unfold handleAction, dispatch. rewrite Ha, Hp. simpl String.eqb.
    cbv iota. rewrite Hne. unfold handleApi. rewrite Hs. simpl negb. cbv iota.
    unfold try_catch, bind. rewrite H. reflexivity.
  - intros e w' H. unfold handleAction, dispatch. rewrite Ha, Hp. simpl String.eqb.
    cbv iota. rewrite Hne. unfold handleApi. rewrite Hs. simpl negb. cbv iota.
    unfold try_catch, bind. rewrite H. reflexivity.
Qed.

Lemma handleApi_reports_failures_witness :
  exists w',
    handleAction Scenario.limited Sample.client 1
      (mkParams "api" None None None None None (Some "/icd/release/11/2024-01/mms"))
      initial_world
    = Ret {| content :=
               [mkText "API Error: Rate limit exceeded. Please try again later."];
             isError := Some true |} w'.
Proof.
  eexists.
  apply (proj2 (proj2 (@handleApi_reports_failures Scenario.limited Sample.client 1
                         (mkParams "api" None None None None None
                                   (Some "/icd/release/11/2024-01/mms"))
                         "/icd/release/11/2024-01/mms" initial_world
                         eq_refl eq_refl eq_refl))
               (Error "Rate limit exceeded. Please try again later.")).
  vm_compute. reflexivity.
Defined.

(** ** Failures of search and chapters *)

(** X15.  For a search that is dispatched and for a chapter listing, a
    failure of the first request (a refused authentication, a rate
    limit, any other error status) is reported as the text "Error: "
    followed by the message, flagged as an error. *)
Theorem request_failure_is_reported
        (E : env) (client : WHOICDClient) (fuel : nat)
        (p : ICDParamsType) (w : world) (e : error) (w' : world) :
  (forall q,
      p_action p = "search" ->
      p_query p = Some q ->
      q <> "" ->
      or_default (p_version p) "11" <> "10" ->
      apiRequest E client fuel (search_endpoint client)
        (Some (search_params q (p_chapter p))) w = Throw e w' ->
      handleAction E client fuel p w
      = Ret {| content := [mkText ("Error: " ++ message e)];
               isError := Some true |} w')
  /\ (p_action p = "chapters" ->
      apiRequest E client fuel
        (if String.eqb (or_default (p_version p) "11") "10"
         then "/icd/release/10/" ++ icd10Release client
         else "/icd/release/11/" ++ icd11Release client ++ "/mms")
        None w = Throw e w' ->
      handleAction E client fuel p w
      = Ret {| content := [mkText ("Error: " ++ message e)];
               isError := Some true |} w').
Proof.
  split.
  - intros q Ha Hq Hne Hv H.
    apply String.eqb_neq in Hne. apply String.eqb_neq in Hv.
    unfold handleAction, dispatch. rewrite Ha, Hq. simpl String.eqb. cbv iota.
    simpl falsy. rewrite Hne, Hv.
    unfold handleSearch, searchICD11, try_catch, bind. rewrite H. reflexivity.
  - intros Ha H.
    unfold handleAction, dispatch. rewrite Ha. simpl String.eqb. cbv iota.
    unfold handleChapters, getICD10Chapters, getICD11Chapters, chapters_of,
      try_catch, bind.
    destruct (String.eqb (or_default (p_version p) "11") "10");
      rewrite H; reflexivity.
Qed.

Lemma request_failure_is_reported_witness :
  exists w',
    handleAction Scenario.limited Sample.client 1
      (mkParams "chapters" None None None None None None) initial_world
    = Ret {| content :=
               [mkText "Error: Rate limit exceeded. Please try again later."];
             isError := Some true |} w'.
Proof.
  eexists.
  apply (proj2 (@request_failure_is_reported Scenario.limited Sample.client 1
                  (mkParams "chapters" None None None None None None)
                  initial_world
                  (Error "Rate limit exceeded. Please try again later.") _)
               eq_refl).
  vm_compute. reflexivity.
Defined.

(** ** The tool callback and the construction of the client *)

Lemma or_default_spec (x : option string) (d : string) :
  d <> "" ->
  or_default x d <> ""
  /\ (falsy x = true -> or_default x d = d)
  /\ (forall s, x = Some s -> s <> "" -> or_default x d = s).
Proof.
  intros Hd. unfold or_default, falsy. destruct x as [s|].
  - destruct (String.eqb_spec s "") as [->|Hs]; repeat split; auto;
      try discriminate; intros s' H; injection H as <-; congruence.
  - repeat split; auto. discriminate.
Qed.

(** X16.  A client is always constructed with a release tag for each
    version and a language that are not empty: an absent or empty value
    of the configuration becomes "2019", "2024-01" and "en", and any
    other value is kept. *)
Theorem new_WHOICDClient_defaults (config : WHOClientConfig) :
  let c := new_WHOICDClient config in
  (icd10Release c <> "" /\ icd11Release c <> "" /\ language c <> "")
  /\ (falsy (cfg_icd10Release config) = true -> icd10Release c = "2019")
  /\ (falsy (cfg_icd11Release config) = true -> icd11Release c = "2024-01")
  /\ (falsy (cfg_language config) = true -> language c = "en")
  /\ (forall s, cfg_icd10Release config = Some s -> s <> "" -> icd10Release c = s)
  /\ (forall s, cfg_icd11Release config = Some s -> s <> "" -> icd11Release c = s)
  /\ (forall s, cfg_language config = Some s -> s <> "" -> language c = s).
Proof.
  simpl.
  destruct (@or_default_spec (cfg_icd10Release config) "2019") as [A1 [A2 A3]];
    [discriminate|].
  destruct (@or_default_spec (cfg_icd11Release config) "2024-01") as [B1 [B2 B3]];
    [discriminate|].
  destruct (@or_default_spec (cfg_language config) "en") as [C1 [C2 C3]];
    [discriminate|].
  repeat split; assumption.
Qed.

Lemma new_WHOICDClient_defaults_witness :
  icd10Release (new_WHOICDClient (mkConfig "id" "secret" (Some "") None (Some "fr")))
  = "2019"
  /\ language (new_WHOICDClient (mkConfig "id" "secret" (Some "") None (Some "fr")))
     = "fr".
Proof.
  destruct (new_WHOICDClient_defaults
              (mkConfig "id" "secret" (Some "") None (Some "fr")))
    as [_ [H10 [_ [_ [_ [_ Hl]]]]]].
  split; [apply H10; reflexivity | apply Hl; [reflexivity | discriminate]].
Defined.

(** X17.  The tool callback answers a call with the identifier or the
    secret missing or empty by the error-flagged text "Error: WHO API
    credentials not configured", without touching the world; with both
    set it is [handleAction] on the client made from the bindings, whose
    credentials are the two bindings.  In no case does it reject. *)
Theorem icd_tool_requires_credentials
        (E : env) (env : Env) (fuel : nat) (args : ICDParamsType) (w : world) :
  (falsy (WHO_CLIENT_ID env) = true \/ falsy (WHO_CLIENT_SECRET env) = true ->
   icd_tool E env fuel args w
   = Ret {| content := [mkText "Error: WHO API credentials not configured"];
            isError := Some true |} w)
  /\ (forall id secret,
         WHO_CLIENT_ID env = Some id -> id <> "" ->
         WHO_CLIENT_SECRET env = Some secret -> secret <> "" ->
         icd_tool E env fuel args w
         = handleAction E (createClient env) fuel args w
         /\ credentials (createClient env)
            = mkTokenRequest TOKEN_ENDPOINT "client_credentials" id secret
                             "icdapi_access")
  /\ (forall e w', icd_tool E env fuel args w <> Throw e w').
Proof.
  unfold icd_tool. split; [|split].
  - intros [H|H]; rewrite H; [reflexivity | rewrite orb_true_r; reflexivity].
  - intros id secret Hi Hin Hs Hsn.
    apply String.eqb_neq in Hin. apply String.eqb_neq in Hsn.
    unfold credentials, createClient. rewrite Hi, Hs. simpl. rewrite Hin, Hsn.
    split; reflexivity.
  - intros e w'.
    destruct (falsy (WHO_CLIENT_ID env) || falsy (WHO_CLIENT_SECRET env));
      [discriminate | apply handleAction_never_rejects].
Qed.

Lemma icd_tool_requires_credentials_witness :
  icd_tool Sample.always404 (mkBindings (Some "id") (Some "") None None None) 1
    (mkParams "help" None None None None None None) initial_world
  = Ret {| content := [mkText "Error: WHO API credentials not configured"];
           isError := Some true |} initial_world
  /\ icd_tool Sample.always404 Scenario.bindings 1
       (mkParams "help" None None None None None None) initial_world
     = handleAction Sample.always404 (createClient Scenario.bindings) 1
         (mkParams "help" None None None None None None) initial_world.
Proof.
  split.
  - apply (proj1 (icd_tool_requires_credentials Sample.always404
                    (mkBindings (Some "id") (Some "") None None None) 1
                    (mkParams "help" None None None None None None) initial_world)).
    right. reflexivity.
  - apply (proj1 (proj2 (icd_tool_requires_credentials Sample.always404
                           Scenario.bindings 1
                           (mkParams "help" None None None None None None)
                           initial_world))
                 "id" "secret"); [reflexivity | discriminate | reflexivity | discriminate].
Defined.

(** ** A lookup that succeeds *)



(** ** Chapters as text *)


